(** * The cockroachdb-transformer of kpt's testutil, verified

    A shallow embedding of [testutil/cockroachdb-transformer/main.go]: the
    program decodes the [API_CONFIG] environment variable into an [API]
    object, copies its standard input to its standard output, prints a
    document separator, defaults the replica count from the [REPLICAS]
    environment variable (or 1), and executes a fixed template.

    Layout: the Go runtime pieces [main] calls (strconv, os, fmt, io) over
    a small process monad, the configuration object, the part of
    text/template the program uses, the template text, the YAML decoder,
    the program itself and the vocabulary of its specification; then the
    properties of the blocks of [main], the claims of the
    specification, and further properties of the program: the numerals
    [strconv.Atoi] accepts, the shape of the rendering and the runs of
    [main]. *)

From Stdlib Require Import ZArith String Ascii List Bool Lia.
From Stdlib Require DecimalString DecimalPos.
From stdpp Require Import base option gmap strings.

Import ListNotations.
Local Open Scope string_scope.
Local Open Scope Z_scope.

(** ** Bytes and strings

    A Go string is a sequence of bytes; a byte is a [Z] in [0, 256). *)

Definition byte_of (c : ascii) : Z := Z.of_N (N_of_ascii c).

(** Go's [byte] subtraction wraps around modulo 256. *)
Definition byte_sub (a b : Z) : Z := (a - b) mod 256.

Definition nl : string := String "010" EmptyString.
Definition dq : string := String "034" EmptyString.

(** ** Errors

    The dynamic types of the [error] values [main] can see. *)

Inductive NumErrKind := ErrSyntax | ErrRange.

Inductive error :=
| NumError (Func : string) (Num : string) (Err : NumErrKind)
| yaml_syntax_error (msg : string)
| io_EOF
| yaml_TypeError (Errors : list string)
| template_error (msg : string)
| read_error (msg : string).

Inductive Result (A : Type) :=
| Ok (a : A)
| Fail (e : error).
Arguments Ok {A} a.
Arguments Fail {A} e.

(** ** strconv

    [strconv.Atoi] for a 64-bit [int]: a fast path for short inputs and
    [ParseInt(s, 10, 0)] for the rest. *)

Module strconv.

Definition intSize : Z := 64.
Definition maxUint64 : Z := 2 ^ 64 - 1.

Definition syntaxError (fn str : string) : error := NumError fn str ErrSyntax.
Definition rangeError (fn str : string) : error := NumError fn str ErrRange.

(** The digit loop of [ParseUint] at base 10 and bit size 64; [n] is a
    [uint64], so the addition wraps. *)
Fixpoint ParseUint_loop (s0 s : string) (n : Z) : Result Z :=
  match s with
  | EmptyString => Ok n
  | String c s' =>
      let b := byte_of c in
      if (48 <=? b) && (b <=? 57) then
        let d := byte_sub b 48 in
        let cutoff := maxUint64 / 10 + 1 in
        let maxVal := 2 ^ intSize - 1 in
        if cutoff <=? n then Fail (rangeError "ParseUint" s0)
        else
          let n := n * 10 in
          let n1 := (n + d) mod 2 ^ 64 in
          if (n1 <? n) || (maxVal <? n1) then Fail (rangeError "ParseUint" s0)
          else ParseUint_loop s0 s' n1
      else Fail (syntaxError "ParseUint" s0)
  end.

Definition ParseUint (s : string) : Result Z :=
  match s with
  | EmptyString => Fail (syntaxError "ParseUint" s)
  | _ => ParseUint_loop s s 0
  end.

Definition is_ErrRange (e : error) : bool :=
  match e with
  | NumError _ _ ErrRange => true
  | _ => false
  end.

Definition ParseInt (s : string) : Result Z :=
  match s with
  | EmptyString => Fail (syntaxError "ParseInt" s)
  | String c rest =>
      let s0 := s in
      let '(neg, s) :=
        if Ascii.eqb c "+" then (false, rest)
        else if Ascii.eqb c "-" then (true, rest)
        else (false, s) in
      let cutoff := 2 ^ (intSize - 1) in
      let check (un : Z) :=
        if negb neg && (cutoff <=? un) then Fail (rangeError "ParseInt" s0)
        else if neg && (cutoff <? un) then Fail (rangeError "ParseInt" s0)
        else Ok (if neg then - un else un) in
      match ParseUint s with
      | Fail e =>
          if is_ErrRange e then check maxUint64
          else Fail (syntaxError "ParseInt" s0)
      | Ok un => check un
      end
  end.

(** The loop of the fast path: [ch -= '0'; if ch > 9 { error }]. *)
Fixpoint Atoi_loop (s : string) (n : Z) : option Z :=
  match s with
  | EmptyString => Some n
  | String c s' =>
      let ch := byte_sub (byte_of c) 48 in
      if 9 <? ch then None else Atoi_loop s' (n * 10 + ch)
  end.

Definition Atoi (s : string) : Result Z :=
  let sLen := Z.of_nat (String.length s) in
  if (0 <? sLen) && (sLen <? 19) then
    match s with
    | EmptyString => Fail (syntaxError "Atoi" s)
    | String c rest =>
        let s0 := s in
        let signed := Ascii.eqb c "-" || Ascii.eqb c "+" in
        let s := if signed then rest else s in
        if signed && (Z.of_nat (String.length s) <? 1) then
          Fail (syntaxError "Atoi" s0)
        else
          match Atoi_loop s 0 with
          | None => Fail (syntaxError "Atoi" s0)
          | Some n => Ok (if Ascii.eqb c "-" then - n else n)
          end
    end
  else
    match ParseInt s with
    | Fail (NumError _ num err) => Fail (NumError "Atoi" num err)
    | r => r
    end.

(** [fmt] prints an [int] in decimal ([strconv.FormatInt(i, 10)]). *)
Definition Itoa (i : Z) : string :=
  DecimalString.NilZero.string_of_int (Z.to_int i).

End strconv.

(** ** The process

    What [main] can observe and change: the environment and the standard
    input are inputs; the bytes written to the standard output and the
    errors printed to the standard error are the state. A process step
    either goes on with a value, or the process ends: [os.Exit] or a
    panic. *)

(** The standard input as [io.Copy] reads it: [data] arrives, then the
    end of the stream, or [failure] if reading breaks. *)
Record Reader := { data : string; failure : option error }.

(** A stream that is read to its end. *)
Definition complete (upstream : string) : Reader :=
  {| data := upstream; failure := None |}.

Record World := { stdout : string; stderr : list error }.

Definition start : World := {| stdout := ""; stderr := [] |}.

Inductive Outcome (A : Type) :=
| Running (a : A)
| Exited (code : Z)
| Panicked (e : error).
Arguments Running {A} a.
Arguments Exited {A} code.
Arguments Panicked {A} e.

Definition Proc (A : Type) : Type := World -> Outcome A * World.

#[global] Instance Proc_ret : MRet Proc := fun A a w => (Running a, w).

#[global] Instance Proc_bind : MBind Proc := fun A B f c w =>
  match c w with
  | (Running a, w') => f a w'
  | (Exited code, w') => (Exited code, w')
  | (Panicked e, w') => (Panicked e, w')
  end.

Module os.

Definition Getenv (env : gmap string string) (key : string) : string :=
  default "" (env !! key).

Definition Exit {A} (code : Z) : Proc A := fun w => (Exited code, w).

(** A write to [os.Stdout]. *)
Definition Stdout_Write (p : string) : Proc unit := fun w =>
  (Running tt, {| stdout := stdout w +:+ p; stderr := stderr w |}).

End os.

Definition panic {A} (e : error) : Proc A := fun w => (Panicked e, w).

Module fmt.

Definition Println (a : string) : Proc unit := os.Stdout_Write (a +:+ nl).

(** [fmt.Fprintf(os.Stderr, "%v\n", err)]: the standard error is kept as
    the list of the errors printed, one per line. *)
Definition Fprintf_Stderr (err : error) : Proc unit := fun w =>
  (Running tt, {| stdout := stdout w; stderr := stderr w ++ [err] |}).

End fmt.

Module io.

(** [io.Copy(os.Stdout, src)]: what was read is written, and a failure of
    the read is returned. *)
Definition Copy (src : Reader) : Proc (option error) :=
  os.Stdout_Write (data src);; mret (failure src).

End io.

(** ** The configuration object *)

Record Metadata := { Name : string }.

(** [Replicas] is a [*int]: [None] is the nil pointer. *)
Record Spec := { Replicas : option Z }.

(** The fields [Metadata] and [Spec] of the Go struct carry the names of
    their types; the projections are prefixed here. *)
Record API := { API_Metadata : Metadata; API_Spec : Spec }.

(** [&API{}] *)
Definition API_zero : API :=
  {| API_Metadata := {| Name := "" |}; API_Spec := {| Replicas := None |} |}.

Definition isNil (p : option Z) : bool :=
  match p with
  | None => true
  | Some _ => false
  end.

Definition set_Replicas (api : API) (p : option Z) : API :=
  {| API_Metadata := API_Metadata api; API_Spec := {| Replicas := p |} |}.

(** ** text/template

    The part of the engine the template [t] uses: text, and actions that
    print a chain of fields of the data, [{{ .A.B }}]. *)

Module template.

Inductive Node :=
| TextNode (text : string)
| ActionNode (fields : list string).

Definition isSpace (c : ascii) : bool :=
  Ascii.eqb c " " || Ascii.eqb c "009" || Ascii.eqb c "013" || Ascii.eqb c "010".

Definition isAlphaNumeric (c : ascii) : bool :=
  let b := byte_of c in
  (b =? 95) || ((48 <=? b) && (b <=? 57)) ||
  ((65 <=? b) && (b <=? 90)) || ((97 <=? b) && (b <=? 122)).

(** The end of an action: only spaces may follow the last field. *)
Fixpoint allSpace (s : string) : bool :=
  match s with
  | EmptyString => true
  | String c s' => isSpace c && allSpace s'
  end.

(** [lexFields s cur infield]: the fields of a chain [.A.B], [cur] being
    the field that is being read. *)
Fixpoint lexFields (s : string) (cur : string) (infield : bool)
  : option (list string) :=
  match s with
  | EmptyString =>
      if infield && negb (String.eqb cur "") then Some [cur] else None
  | String c s' =>
      if Ascii.eqb c "." then
        if infield then
          if String.eqb cur "" then None
          else cons cur <$> lexFields s' "" true
        else lexFields s' "" true
      else if infield && isAlphaNumeric c then
        lexFields s' (cur +:+ String c "") true
      else if isSpace c then
        if infield then
          if negb (String.eqb cur "") && allSpace s' then Some [cur] else None
        else lexFields s' "" false
      else None
  end.

Definition after (n : nat) (s : string) : string :=
  String.substring n (String.length s - n) s.

(** The lexer and parser: text up to the left delimiter, the action up to
    the right delimiter, and so on; [fuel] bounds the number of actions. *)
Fixpoint parse_loop (fuel : nat) (s : string) : Result (list Node) :=
  match fuel with
  | O => Fail (template_error "template: too long")
  | S fuel' =>
      match String.index 0 "{{" s with
      | None => Ok (if String.eqb s "" then [] else [TextNode s])
      | Some i =>
          let text := String.substring 0 i s in
          let rest := after (i + 2) s in
          match String.index 0 "}}" rest with
          | None => Fail (template_error "template: deployment: unclosed action")
          | Some j =>
              match lexFields (String.substring 0 j rest) "" false with
              | None =>
                  Fail (template_error "template: deployment: unexpected action")
              | Some fields =>
                  match parse_loop fuel' (after (j + 2) rest) with
                  | Fail e => Fail e
                  | Ok nodes =>
                      Ok ((if String.eqb text "" then [] else [TextNode text])
                            ++ ActionNode fields :: nodes)%list
                  end
              end
          end
      end
  end.

Definition Parse (text : string) : Result (list Node) :=
  parse_loop (S (String.length text)) text.

(** [template.Must] panics when the template does not parse. *)
Definition Must (r : Result (list Node)) : Proc (list Node) :=
  match r with
  | Ok tmpl => mret tmpl
  | Fail e => panic e
  end.

(** The values a field chain goes through, starting at the [*API]. *)
Inductive Value :=
| APIValue (api : API)
| MetadataValue (m : Metadata)
| SpecValue (s : Spec)
| StringValue (s : string)
| IntPtrValue (p : option Z).

Definition evalField (v : Value) (fieldName : string) : Result Value :=
  match v with
  | APIValue api =>
      if String.eqb fieldName "Metadata" then Ok (MetadataValue (API_Metadata api))
      else if String.eqb fieldName "Spec" then Ok (SpecValue (API_Spec api))
      else Fail (template_error
                   ("can't evaluate field " +:+ fieldName +:+ " in type *main.API"))
  | MetadataValue m =>
      if String.eqb fieldName "Name" then Ok (StringValue (Name m))
      else Fail (template_error
                   ("can't evaluate field " +:+ fieldName +:+ " in type main.Metadata"))
  | SpecValue s =>
      if String.eqb fieldName "Replicas" then Ok (IntPtrValue (Replicas s))
      else Fail (template_error
                   ("can't evaluate field " +:+ fieldName +:+ " in type main.Spec"))
  | StringValue _ =>
      Fail (template_error
              ("can't evaluate field " +:+ fieldName +:+ " in type string"))
  | IntPtrValue _ =>
      Fail (template_error
              ("can't evaluate field " +:+ fieldName +:+ " in type *int"))
  end.

Fixpoint evalFieldChain (v : Value) (fields : list string) : Result Value :=
  match fields with
  | [] => Ok v
  | f :: fields' =>
      match evalField v f with
      | Ok v' => evalFieldChain v' fields'
      | Fail e => Fail e
      end
  end.

(** [printValue]: a string as it is, a pointer to an [int] through the
    pointer, in decimal. The template [t] prints no struct; printing one
    is outside this model and reported as an error. *)
Definition printValue (v : Value) : Result string :=
  match v with
  | StringValue s => Ok s
  | IntPtrValue (Some i) => Ok (strconv.Itoa i)
  | IntPtrValue None => Ok "<nil>"
  | _ => Fail (template_error "printing a struct")
  end.

(** [Execute] walks the nodes and writes as it goes: what was written
    before an error stays written. *)
Fixpoint Execute (tmpl : list Node) (data : API) : Proc (option error) :=
  match tmpl with
  | [] => mret None
  | TextNode text :: tmpl' => os.Stdout_Write text;; Execute tmpl' data
  | ActionNode fields :: tmpl' =>
      match evalFieldChain (APIValue data) fields with
      | Fail e => mret (Some e)
      | Ok v =>
          match printValue v with
          | Fail e => mret (Some e)
          | Ok p => os.Stdout_Write p;; Execute tmpl' data
          end
      end
  end.

End template.

Definition t : string :=
  "
apiVersion: v1
kind: Service
metadata:
  # This service is meant to be used by clients of the database. It exposes a ClusterIP that will
  # automatically load balance connections to the different database pods.
  name: {{ .Metadata.Name }}-public
  labels:
    app: {{ .Metadata.Name }}-cockroachdb
  annotations:
    kpt.dev/kio/path: null
    kpt.dev/kio/index: null
spec:
  ports:
  # The main port, served by gRPC, serves Postgres-flavor SQL, internode
  # traffic and the cli.
  - port: 26257
    targetPort: 26257
    name: grpc
  # The secondary port serves the UI as well as health and debug endpoints.
  - port: 8080
    targetPort: 8080
    name: http
  selector:
    app: {{ .Metadata.Name }}-cockroachdb
---
apiVersion: v1
kind: Service
metadata:
  # This service only exists to create DNS entries for each pod in the stateful
  # set such that they can resolve each other's IP addresses. It does not
  # create a load-balanced ClusterIP and should not be used directly by clients
  # in most circumstances.
  name: {{ .Metadata.Name }}
  labels:
    app: {{ .Metadata.Name }}-cockroachdb
  annotations:
    # This is needed to make the peer-finder work properly and to help avoid
    # edge cases where instance 0 comes up after losing its data and needs to
    # decide whether it should create a new cluster or try to join an existing
    # one. If it creates a new cluster when it should have joined an existing
    # one, we'd end up with two separate clusters listening at the same service
    # endpoint, which would be very bad.
    service.alpha.kubernetes.io/tolerate-unready-endpoints: " +:+ dq +:+
  "true" +:+ dq +:+
  "
    # Enable automatic monitoring of all instances when Prometheus is running in the cluster.
    prometheus.io/scrape: " +:+ dq +:+
  "true" +:+ dq +:+
  "
    prometheus.io/path: " +:+ dq +:+
  "_status/vars" +:+ dq +:+
  "
    prometheus.io/port: " +:+ dq +:+
  "8080" +:+ dq +:+
  "
    kpt.dev/kio/path: null
    kpt.dev/kio/index: null
spec:
  ports:
  - port: 26257
    targetPort: 26257
    name: grpc
  - port: 8080
    targetPort: 8080
    name: http
  clusterIP: None
  selector:
    app: {{ .Metadata.Name }}-cockroachdb
---
apiVersion: policy/v1beta1
kind: PodDisruptionBudget
metadata:
  name: cockroachdb-budget
  labels:
    app: {{ .Metadata.Name }}-cockroachdb
  annotations:
    kpt.dev/kio/path: null
    kpt.dev/kio/index: null
spec:
  selector:
    matchLabels:
      app: {{ .Metadata.Name }}-cockroachdb
  minAvailable: 67%
---
apiVersion: apps/v1  #  for k8s versions before 1.9.0 use apps/v1beta2  and before 1.8.0 use extensions/v1beta1
kind: StatefulSet
metadata:
  name: {{ .Metadata.Name }}
  labels:
    app: {{ .Metadata.Name }}-cockroachdb
  annotations:
    kpt.dev/kio/path: null
    kpt.dev/kio/index: null
    kpt.dev/duck/set-image: disabled
    kpt.dev/duck/get-image: disabled
    kpt.dev/duck/set-replicas: disabled
    kpt.dev/duck/get-replicas: disabled
spec:
  serviceName: {{ .Metadata.Name }}
  replicas: {{ .Spec.Replicas }}
  selector:
    matchLabels:
      app: {{ .Metadata.Name }}-cockroachdb
  template:
    metadata:
      labels:
        app: {{ .Metadata.Name }}-cockroachdb
    spec:
      # Init containers are run only once in the lifetime of a pod, before
      # it's started up for the first time. It has to exit successfully
      # before the pod's main containers are allowed to start.
      # This particular init container does a DNS lookup for other pods in
      # the set to help determine whether or not a cluster already exists.
      # If any other pods exist, it creates a file in the cockroach-data
      # directory to pass that information along to the primary container that
      # has to decide what command-line flags to use when starting CockroachDB.
      # This only matters when a pod's persistent volume is empty - if it has
      # data from a previous execution, that data will always be used.
      #
      # If your Kubernetes cluster uses a custom DNS domain, you will have
      # to add an additional arg to this pod: " +:+ dq +:+
  "-domain=<your-custom-domain>" +:+ dq +:+
  "
      initContainers:
      - name: bootstrap
        image: cockroachdb/cockroach-k8s-init:0.1
        imagePullPolicy: IfNotPresent
        args:
        - " +:+ dq +:+
  "-on-start=/on-start.sh" +:+ dq +:+
  "
        - " +:+ dq +:+
  "-service=cockroachdb" +:+ dq +:+
  "
        env:
        - name: POD_NAMESPACE
          valueFrom:
            fieldRef:
              fieldPath: metadata.namespace
        volumeMounts:
        - name: datadir
          mountPath: " +:+ dq +:+
  "/cockroach/cockroach-data" +:+ dq +:+
  "
      affinity:
        podAntiAffinity:
          preferredDuringSchedulingIgnoredDuringExecution:
          - weight: 100
            podAffinityTerm:
              labelSelector:
                matchExpressions:
                - key: app
                  operator: In
                  values:
                  - cockroachdb
              topologyKey: kubernetes.io/hostname
      containers:
      - name: cockroachdb
        image: cockroachdb/cockroach:v1.1.0
        imagePullPolicy: IfNotPresent
        ports:
        - containerPort: 26257
          name: grpc
        - containerPort: 8080
          name: http
        volumeMounts:
        - name: datadir
          mountPath: /cockroach/cockroach-data
        command:
          - " +:+ dq +:+
  "/bin/bash" +:+ dq +:+
  "
          - " +:+ dq +:+
  "-ecx" +:+ dq +:+
  "
          - |
            # The use of qualified `hostname -f` is crucial:
            # Other nodes aren't able to look up the unqualified hostname.
            CRARGS=(" +:+ dq +:+
  "start" +:+ dq +:+
  " " +:+ dq +:+
  "--logtostderr" +:+ dq +:+
  " " +:+ dq +:+
  "--insecure" +:+ dq +:+
  " " +:+ dq +:+
  "--host" +:+ dq +:+
  " " +:+ dq +:+
  "$(hostname -f)" +:+ dq +:+
  " " +:+ dq +:+
  "--http-host" +:+ dq +:+
  " " +:+ dq +:+
  "0.0.0.0" +:+ dq +:+
  ")
            # We only want to initialize a new cluster (by omitting the join flag)
            # if we're sure that we're the first node (i.e. index 0) and that
            # there aren't any other nodes running as part of the cluster that
            # this is supposed to be a part of (which indicates that a cluster
            # already exists and we should make sure not to create a new one).
            # It's fine to run without --join on a restart if there aren't any
            # other nodes.
            if [ ! " +:+ dq +:+
  "$(hostname)" +:+ dq +:+
  " == " +:+ dq +:+
  "cockroachdb-0" +:+ dq +:+
  " ] || \
               [ -e " +:+ dq +:+
  "/cockroach/cockroach-data/cluster_exists_marker" +:+ dq +:+
  " ]
            then
              # We don't join cockroachdb in order to avoid a node attempting
              # to join itself, which currently doesn't work
              # (https://github.com/cockroachdb/cockroach/issues/9625).
              CRARGS+=(" +:+ dq +:+
  "--join" +:+ dq +:+
  " " +:+ dq +:+
  "cockroachdb-public" +:+ dq +:+
  ")
            fi
            exec /cockroach/cockroach ${CRARGS[*]}
      # No pre-stop hook is required, a SIGTERM plus some time is all that's
      # needed for graceful shutdown of a node.
      terminationGracePeriodSeconds: 60
      volumes:
      - name: datadir
        persistentVolumeClaim:
          claimName: datadir
  volumeClaimTemplates:
  - metadata:
      name: datadir
    spec:
      accessModes:
        - " +:+ dq +:+
  "ReadWriteOnce" +:+ dq +:+
  "
      resources:
        requests:
          storage: 1Gi
".

(** ** The YAML decoder

    [yaml.NewDecoder] and [KnownFields] as [main] calls them, and a model
    of [Decode], whose code (gopkg.in/yaml.v3) is outside the repository. *)

Module yaml.

Record Decoder := { input : string; knownFields : bool }.

Definition NewDecoder (r : string) : Decoder :=
  {| input := r; knownFields := false |}.

Definition KnownFields (d : Decoder) (enable : bool) : Decoder :=
  {| input := input d; knownFields := enable |}.

(** Modelled from the spec: the decoder of gopkg.in/yaml.v3 is missing
    from the sources. The input is "a semi-structured key/value document":
    scalars, mappings from keys to nodes, and sequences. *)
#[warnings="-register-all"]
Inductive Node :=
| ScalarNode (value : string)
| MappingNode (content : list (string * Node))
| SequenceNode (content : list Node).

(** Modelled from the spec: what the missing parser makes of a text. A
    text "not syntactically valid in its encoding" is a [SyntaxError]; a
    stream that holds no document is [NoDocument]. *)
Inductive ParseOutcome :=
| SyntaxError (msg : string)
| NoDocument
| Document (n : Node).

(** Modelled from the spec: the fields are "optional at the syntax
    level"; a key without a value (the null scalar) counts as absent. *)
Definition isNull (value : string) : bool :=
  String.eqb value "" || String.eqb value "~" || String.eqb value "null".

(** Modelled from the spec: the missing [unmarshal] of a mapping into a
    struct. The entries are visited in order; a key that names a field
    sets it; "unknown fields must not cause failure": any other key is
    skipped, unless [KnownFields(true)] asked for an error. The errors
    are collected and the visit goes on. *)
Definition mappingStruct_step {T : Type} (typ : string)
    (field : string -> option (Node -> T -> T * list string))
    (known : bool) (acc : T * list string) (kv : string * Node)
  : T * list string :=
  match field (fst kv) with
  | Some set =>
      let r := set (snd kv) (fst acc) in
      (fst r, (snd acc ++ snd r)%list)
  | None =>
      if known then
        (fst acc,
         (snd acc ++ ["field " +:+ fst kv +:+ " not found in type " +:+ typ])%list)
      else acc
  end.

Definition mappingStruct {T : Type} (typ : string)
    (field : string -> option (Node -> T -> T * list string))
    (known : bool) (content : list (string * Node)) (out : T)
  : T * list string :=
  fold_left (mappingStruct_step typ field known) content (out, []).

Definition unmarshalStruct {T : Type} (typ : string)
    (field : string -> option (Node -> T -> T * list string))
    (known : bool) (n : Node) (out : T) : T * list string :=
  match n with
  | MappingNode content => mappingStruct typ field known content out
  | ScalarNode value =>
      if isNull value then (out, [])
      else (out, ["cannot unmarshal !!str into " +:+ typ])
  | SequenceNode _ => (out, ["cannot unmarshal !!seq into " +:+ typ])
  end.

(** Modelled from the spec: "a nested metadata.name string". *)
Definition Metadata_field (key : string)
  : option (Node -> Metadata -> Metadata * list string) :=
  if String.eqb key "name" then
    Some (fun n out =>
            match n with
            | ScalarNode value =>
                if isNull value then (out, []) else ({| Name := value |}, [])
            | MappingNode _ => (out, ["cannot unmarshal !!map into string"])
            | SequenceNode _ => (out, ["cannot unmarshal !!seq into string"])
            end)
  else None.

(** Modelled from the spec: "a nested spec.replicas integer", optional,
    read as a decimal integer of the size of [int]. *)
Definition Spec_field (key : string)
  : option (Node -> Spec -> Spec * list string) :=
  if String.eqb key "replicas" then
    Some (fun n out =>
            match n with
            | ScalarNode value =>
                if isNull value then ({| Replicas := None |}, [])
                else
                  match strconv.ParseInt value with
                  | Ok i => ({| Replicas := Some i |}, [])
                  | Fail _ => (out, ["cannot unmarshal !!str into int"])
                  end
            | MappingNode _ => (out, ["cannot unmarshal !!map into int"])
            | SequenceNode _ => (out, ["cannot unmarshal !!seq into int"])
            end)
  else None.

Definition API_field (known : bool) (key : string)
  : option (Node -> API -> API * list string) :=
  if String.eqb key "metadata" then
    Some (fun n out =>
            let r := unmarshalStruct "main.Metadata" Metadata_field known n
                       (API_Metadata out) in
            ({| API_Metadata := fst r; API_Spec := API_Spec out |}, snd r))
  else if String.eqb key "spec" then
    Some (fun n out =>
            let r := unmarshalStruct "main.Spec" Spec_field known n
                       (API_Spec out) in
            ({| API_Metadata := API_Metadata out; API_Spec := fst r |}, snd r))
  else None.

Definition unmarshal (known : bool) (n : Node) (out : API) : API * list string :=
  unmarshalStruct "main.API" (API_field known) known n out.

(** Modelled from the spec: the missing [Decode], for a parser [parse]:
    a syntax error is returned, a stream without a document is [io.EOF],
    and the errors of [unmarshal] come back as one [TypeError]. *)
Definition Decode (parse : string -> ParseOutcome) (d : Decoder) (v : API)
  : Result API :=
  match parse (input d) with
  | SyntaxError msg => Fail (yaml_syntax_error msg)
  | NoDocument => Fail io_EOF
  | Document n =>
      let r := unmarshal (knownFields d) n v in
      match snd r with
      | [] => Ok (fst r)
      | terrors => Fail (yaml_TypeError terrors)
      end
  end.

(** The part of a document that names fields of [API]. *)
Definition keep (keys : list string) (content : list (string * Node))
  : list (string * Node) :=
  List.filter (fun kv => bool_decide (fst kv ∈ keys)) content.

Definition known_part_of (keys : list string) (n : Node) : Node :=
  match n with
  | MappingNode content => MappingNode (keep keys content)
  | _ => n
  end.

Definition known_part (n : Node) : Node :=
  match n with
  | MappingNode content =>
      MappingNode
        (map (fun kv =>
                if String.eqb (fst kv) "metadata"
                then (fst kv, known_part_of ["name"] (snd kv))
                else (fst kv, known_part_of ["replicas"] (snd kv)))
           (keep ["metadata"; "spec"] content))
  | _ => n
  end.

(** Modelled from the spec: a parser for the document shape of the
    spec's external interfaces, nested block mappings of plain scalars

      metadata:
        name: <string>
      spec:
        replicas: <integer, optional>

    with blank lines and comment lines. It stands for the missing parser
    where a concrete one is needed; a text outside this shape is
    rejected. *)

Definition Line : Type := nat * string * option string.

Fixpoint lines_of (s : string) (cur : string) : list string :=
  match s with
  | EmptyString => [cur]
  | String c s' =>
      if Ascii.eqb c "010" then cur :: lines_of s' ""
      else lines_of s' (cur +:+ String c "")
  end.

Fixpoint indent_of (s : string) : nat * string :=
  match s with
  | String " " s' => let r := indent_of s' in (S (fst r), snd r)
  | _ => (O, s)
  end.

Fixpoint trim_left (s : string) : string :=
  match s with
  | String " " s' => trim_left s'
  | _ => s
  end.

(** The key of a line, up to its colon, and what follows the colon. *)
Fixpoint key_of (s : string) : option (string * string) :=
  match s with
  | EmptyString => None
  | String c s' =>
      if Ascii.eqb c ":" then Some ("", s')
      else if Ascii.eqb c " " || Ascii.eqb c "#" then None
      else
        match key_of s' with
        | Some (k, r) => Some (String c k, r)
        | None => None
        end
  end.

(** [None]: a blank or comment line; [Some None]: not a line of the shape. *)
Definition line_of (s : string) : option (option Line) :=
  let (i, body) := indent_of s in
  match body with
  | EmptyString => None
  | String "#" _ => None
  | _ =>
      Some
        match key_of body with
        | Some (String c k, EmptyString) => Some (i, String c k, None)
        | Some (String c k, String " " r) =>
            let v := trim_left r in
            Some (i, String c k, if String.eqb v "" then None else Some v)
        | _ => None
        end
  end.

Fixpoint scan (ls : list string) : option (list Line) :=
  match ls with
  | [] => Some []
  | l :: ls' =>
      match line_of l with
      | None => scan ls'
      | Some None => None
      | Some (Some ln) => cons ln <$> scan ls'
      end
  end.

(** The entries of the mapping at indentation [ind], and the lines left
    over; [fuel] bounds the depth of the recursion. *)
Fixpoint block (fuel : nat) (ind : nat) (ls : list Line)
  : option (list (string * Node) * list Line) :=
  match fuel with
  | O => None
  | S fuel' =>
      match ls with
      | [] => Some ([], [])
      | (i, k, v) :: rest =>
          if (i <? ind)%nat then Some ([], ls)
          else if (ind <? i)%nat then None
          else
            match v with
            | Some v =>
                r ← block fuel' ind rest;
                Some ((k, ScalarNode v) :: fst r, snd r)
            | None =>
                match rest with
                | (i2, _, _) :: _ =>
                    if (ind <? i2)%nat then
                      c ← block fuel' i2 rest;
                      r ← block fuel' ind (snd c);
                      Some ((k, MappingNode (fst c)) :: fst r, snd r)
                    else
                      r ← block fuel' ind rest;
                      Some ((k, ScalarNode "") :: fst r, snd r)
                | [] => Some ([(k, ScalarNode "")], [])
                end
            end
      end
  end.

Definition block_parse (text : string) : ParseOutcome :=
  match scan (lines_of text "") with
  | None => SyntaxError "yaml: could not find expected ':'"
  | Some [] => NoDocument
  | Some ((i, k, v) :: rest) =>
      let ls := (i, k, v) :: rest in
      match block (S (length ls)) i ls with
      | Some (content, []) => Document (MappingNode content)
      | _ => SyntaxError "yaml: did not find expected key"
      end
  end.

End yaml.

(** ** The program

    [main], in the four blocks its comments mark. [Decode] is the method
    of gopkg.in/yaml.v3, a library outside the repository: the program is
    defined for any decoder. *)

Section Program.

Variable Decode : yaml.Decoder -> API -> Result API.

(** Lines 47-54: parse the configuration and decode it into an object;
    an error is printed and ends the process with status 1. *)
Definition decodeConfig (env : gmap string string) : Proc API :=
  let d := yaml.NewDecoder (os.Getenv env "API_CONFIG") in
  let d := yaml.KnownFields d false in
  let api := API_zero in
  match Decode d api with
  | Fail err => fmt.Fprintf_Stderr err;; os.Exit 1
  | Ok api => mret api
  end.

(** Lines 56-60: copy the input resources, panic if that fails, then
    print the separator, [fmt.Println("\n---")]. *)
Definition copyInput (stdin : Reader) : Proc unit :=
  err ← io.Copy stdin;
  match err with
  | Some err => panic err
  | None => mret tt
  end;;
  fmt.Println (nl +:+ "---").

(** Lines 62-75: default the Replicas field, from the [REPLICAS]
    variable when it is set and the field is nil, then to 1 when the
    field is still nil. *)
Definition defaultReplicas (env : gmap string string) (api : API) : Proc API :=
  let r := os.Getenv env "REPLICAS" in
  api ← (if negb (String.eqb r "") && isNil (Replicas (API_Spec api)) then
           match strconv.Atoi r with
           | Fail err => fmt.Fprintf_Stderr err;; os.Exit 1
           | Ok replicas => mret (set_Replicas api (Some replicas))
           end
         else mret api);
  if isNil (Replicas (API_Spec api)) then
    let r := 1 in
    mret (set_Replicas api (Some r))
  else mret api.

(** Lines 77-85: define and execute the template. *)
Definition executeTemplate (api : API) : Proc unit :=
  tmpl ← template.Must (template.Parse t);
  err ← template.Execute tmpl api;
  match err with
  | Some err => fmt.Fprintf_Stderr err;; os.Exit 1
  | None => mret tt
  end.

(** Lines 46-86. *)
Definition main (env : gmap string string) (stdin : Reader) : Proc unit :=
  api ← decodeConfig env;
  copyInput stdin;;
  api ← defaultReplicas env api;
  executeTemplate api.

End Program.

(** ** Vocabulary of the specification *)

(** The separator [main] prints after the upstream stream: the newline
    that ends its line (a blank line after a stream that ends in a
    newline) and the three-dash line. *)
Definition separator : string := nl +:+ "---" +:+ nl.

(** The parsed template. *)
Definition deployment : list template.Node :=
  match template.Parse t with
  | Ok tmpl => tmpl
  | Fail _ => []
  end.

(** The rendering of the template against a configuration: what
    [Execute] writes to an empty output. *)
Definition rendering (api : API) : string :=
  stdout (snd (template.Execute deployment api start)).

(** The precedence rule as the specification words it: the explicit
    value; otherwise the environment default, when it is a non-empty
    string that parses as an integer; otherwise 1. *)
Definition precedence (explicit : option Z) (dflt : string) : Z :=
  match explicit with
  | Some r => r
  | None =>
      if negb (String.eqb dflt "") then
        match strconv.Atoi dflt with
        | Ok d => d
        | Fail _ => 1
        end
      else 1
  end.

(** The decoder as [main] sets it up for a configuration text. *)
Definition decoder_of (env : gmap string string) : yaml.Decoder :=
  yaml.KnownFields (yaml.NewDecoder (os.Getenv env "API_CONFIG")) false.

Fixpoint occurrences (pat s : string) : nat :=
  match s with
  | EmptyString => O
  | String _ s' =>
      ((if String.prefix pat s then 1 else 0) + occurrences pat s')%nat
  end.

(** The actions of [t]: the name, or the replica count. *)
Definition action_ok (n : template.Node) : bool :=
  match n with
  | template.TextNode _ => true
  | template.ActionNode fields =>
      bool_decide (fields = ["Metadata"; "Name"]) ||
      bool_decide (fields = ["Spec"; "Replicas"])
  end.

(** ** Sample inputs *)

Definition config_mydb : string :=
"metadata:
  name: mydb
".

Definition config_mydb3 : string :=
"# a database
metadata:
  name: mydb
  labels:
    tier: db
spec:
  replicas: 3
  paused: yes
owner: team-a
".

Definition config_mydb3_plain : string :=
"metadata:
  name: mydb
spec:
  replicas: 3
".

Definition api_mydb : API :=
  {| API_Metadata := {| Name := "mydb" |}; API_Spec := {| Replicas := None |} |}.

Definition api_mydb3 : API :=
  {| API_Metadata := {| Name := "mydb" |}; API_Spec := {| Replicas := Some 3 |} |}.

Definition env_of (config replicas : string) : gmap string string :=
  {[ "API_CONFIG" := config; "REPLICAS" := replicas ]}.

(** ** Vocabulary of the further properties *)

(** The decimal numerals: an optional sign, then one digit or more, read
    in base ten by Horner's rule. *)
Definition isDigit (c : ascii) : bool := (48 <=? byte_of c) && (byte_of c <=? 57).

Fixpoint allDigits (s : string) : bool :=
  match s with
  | EmptyString => true
  | String c s' => isDigit c && allDigits s'
  end.

Fixpoint horner (s : string) (n : Z) : Z :=
  match s with
  | EmptyString => n
  | String c s' => horner s' (n * 10 + (byte_of c - 48))
  end.

Definition decimal (s : string) : option Z :=
  match s with
  | EmptyString => None
  | String c rest =>
      let ds := if Ascii.eqb c "-" || Ascii.eqb c "+" then rest else s in
      if negb (String.eqb ds "") && allDigits ds then
        Some (if Ascii.eqb c "-" then - horner ds 0 else horner ds 0)
      else None
  end.

(** The range of Go's [int] on a 64-bit platform. *)
Definition in_int (v : Z) : Prop := - 2 ^ 63 <= v < 2 ^ 63.

Definition signed (neg : bool) (u : Z) : Z := if neg then - u else u.

(** What [{{ .Spec.Replicas }}] prints for a configuration. *)
Definition replicas_text (api : API) : string :=
  match Replicas (API_Spec api) with
  | Some i => strconv.Itoa i
  | None => "<nil>"
  end.

(** A template with the name written at every [.Metadata.Name] action
    and the replica text at every other action. *)
Fixpoint substitute (tmpl : list template.Node) (name replicas : string) : string :=
  match tmpl with
  | [] => ""
  | template.TextNode text :: tmpl' => text +:+ substitute tmpl' name replicas
  | template.ActionNode fields :: tmpl' =>
      (if bool_decide (fields = ["Metadata"; "Name"]) then name else replicas)
        +:+ substitute tmpl' name replicas
  end.

(** The number of bytes of the text of a template, and the number of
    its actions on a given field chain. *)
Fixpoint text_size (tmpl : list template.Node) : Z :=
  match tmpl with
  | [] => 0
  | template.TextNode text :: tmpl' => Z.of_nat (String.length text) + text_size tmpl'
  | template.ActionNode _ :: tmpl' => text_size tmpl'
  end.

Fixpoint count_action (fields : list string) (tmpl : list template.Node) : Z :=
  match tmpl with
  | [] => 0
  | template.TextNode _ :: tmpl' => count_action fields tmpl'
  | template.ActionNode f :: tmpl' =>
      (if bool_decide (f = fields) then 1 else 0) + count_action fields tmpl'
  end.

(** The text of the [i]-th node of the parsed template. *)
Definition text_at (i : nat) : string :=
  match nth_error deployment i with
  | Some (template.TextNode text) => text
  | _ => ""
  end.

(** Runs the monad's plumbing and the output primitives, and leaves the
    strings alone. *)
Ltac run :=
  cbv [mbind mret Proc_bind Proc_ret os.Stdout_Write os.Exit fmt.Println
       fmt.Fprintf_Stderr io.Copy panic template.Must complete start];
  cbn [data failure stdout stderr fst snd].

(** * Properties *)

(** ** Strings *)

Lemma append_cons (x : ascii) (a b : string) :
  String x a +:+ b = String x (a +:+ b).
Proof. reflexivity. Qed.

Lemma append_nil_l (a : string) : "" +:+ a = a.
Proof. reflexivity. Qed.

Lemma append_assoc (a b c : string) : (a +:+ b) +:+ c = a +:+ (b +:+ c).
Proof.
  induction a as [|x a IH]; [reflexivity|].
  rewrite !append_cons. now f_equal.
Qed.

Lemma append_nil_r (a : string) : a +:+ "" = a.
Proof.
  induction a as [|x a IH]; [reflexivity|].
  rewrite append_cons. now f_equal.
Qed.

(** ** The process monad *)

Lemma bind_run {A B} (c : Proc A) (f : A -> Proc B) (w : World) :
  (c ≫= f) w =
  match c w with
  | (Running a, w') => f a w'
  | (Exited code, w') => (Exited code, w')
  | (Panicked e, w') => (Panicked e, w')
  end.
Proof. reflexivity. Qed.

Lemma ret_run {A} (a : A) (w : World) : (mret a : Proc A) w = (Running a, w).
Proof. reflexivity. Qed.

(** ** The blocks of [main] *)

Section Blocks.

Variable Decode : yaml.Decoder -> API -> Result API.

Lemma decodeConfig_Ok env api w :
  Decode (decoder_of env) API_zero = Ok api ->
  decodeConfig Decode env w = (Running api, w).
Proof.
  intros H. unfold decodeConfig. fold (decoder_of env). now rewrite H.
Qed.

Lemma decodeConfig_Fail env e w :
  Decode (decoder_of env) API_zero = Fail e ->
  decodeConfig Decode env w =
  (Exited 1, {| stdout := stdout w; stderr := stderr w ++ [e] |}).
Proof.
  intros H. unfold decodeConfig. fold (decoder_of env). now rewrite H.
Qed.

Lemma copyInput_complete upstream w :
  copyInput (complete upstream) w =
  (Running tt,
   {| stdout := stdout w +:+ upstream +:+ separator; stderr := stderr w |}).
Proof.
  unfold copyInput, separator. run. now rewrite !append_assoc.
Qed.

(** A read failure: what was read is out, and the process panics. *)
Lemma copyInput_failure upstream e w :
  copyInput {| data := upstream; failure := Some e |} w =
  (Panicked e, {| stdout := stdout w +:+ upstream; stderr := stderr w |}).
Proof. reflexivity. Qed.

(** The three ways through the defaulting block. *)
Lemma defaultReplicas_explicit env api r w :
  Replicas (API_Spec api) = Some r ->
  defaultReplicas env api w = (Running api, w).
Proof.
  intros H. unfold defaultReplicas. rewrite H. simpl.
  rewrite andb_false_r, bind_run, ret_run. now rewrite H.
Qed.

Lemma defaultReplicas_env env api d w :
  Replicas (API_Spec api) = None ->
  os.Getenv env "REPLICAS" <> "" ->
  strconv.Atoi (os.Getenv env "REPLICAS") = Ok d ->
  defaultReplicas env api w = (Running (set_Replicas api (Some d)), w).
Proof.
  intros Hnil Hne Hd. unfold defaultReplicas. rewrite Hnil, Hd. simpl.
  destruct (String.eqb_spec (os.Getenv env "REPLICAS") "") as [E|_];
    [contradiction|]. reflexivity.
Qed.

Lemma defaultReplicas_env_invalid env api e w :
  Replicas (API_Spec api) = None ->
  os.Getenv env "REPLICAS" <> "" ->
  strconv.Atoi (os.Getenv env "REPLICAS") = Fail e ->
  defaultReplicas env api w =
  (Exited 1, {| stdout := stdout w; stderr := stderr w ++ [e] |}).
Proof.
  intros Hnil Hne He. unfold defaultReplicas. rewrite Hnil, He. simpl.
  destruct (String.eqb_spec (os.Getenv env "REPLICAS") "") as [E|_];
    [contradiction|]. reflexivity.
Qed.

Lemma defaultReplicas_fallback env api w :
  Replicas (API_Spec api) = None ->
  os.Getenv env "REPLICAS" = "" ->
  defaultReplicas env api w = (Running (set_Replicas api (Some 1)), w).
Proof.
  intros Hnil He. unfold defaultReplicas. rewrite He.
  change (negb (String.eqb "" "")) with false. rewrite andb_false_l.
  run. now rewrite Hnil.
Qed.

(** The block always ends, in one of the four ways above. *)
Lemma defaultReplicas_cases env api w :
  (exists r, Replicas (API_Spec api) = Some r /\
             defaultReplicas env api w = (Running api, w)) \/
  (exists d, Replicas (API_Spec api) = None /\
             os.Getenv env "REPLICAS" <> "" /\
             strconv.Atoi (os.Getenv env "REPLICAS") = Ok d /\
             defaultReplicas env api w =
             (Running (set_Replicas api (Some d)), w)) \/
  (exists e, Replicas (API_Spec api) = None /\
             os.Getenv env "REPLICAS" <> "" /\
             strconv.Atoi (os.Getenv env "REPLICAS") = Fail e /\
             defaultReplicas env api w =
             (Exited 1, {| stdout := stdout w; stderr := stderr w ++ [e] |})) \/
  (Replicas (API_Spec api) = None /\
   os.Getenv env "REPLICAS" = "" /\
   defaultReplicas env api w = (Running (set_Replicas api (Some 1)), w)).
Proof.
  destruct (Replicas (API_Spec api)) as [r|] eqn:Hr.
  - left. exists r. split; [reflexivity|]. now apply defaultReplicas_explicit with r.
  - right. destruct (String.eqb_spec (os.Getenv env "REPLICAS") "") as [E|N].
    + right. right. repeat split; trivial. now apply defaultReplicas_fallback.
    + destruct (strconv.Atoi (os.Getenv env "REPLICAS")) as [d|e] eqn:Hd.
      * left. exists d. repeat split; trivial. now apply defaultReplicas_env.
      * right. left. exists e. repeat split; trivial.
        now apply defaultReplicas_env_invalid.
Qed.

End Blocks.

(** ** Template execution *)

Lemma World_eta (w : World) : {| stdout := stdout w; stderr := stderr w |} = w.
Proof. now destruct w. Qed.

(** [Execute] only appends to the output, and what it appends does not
    depend on what is already there. *)
Lemma Execute_append tmpl api : forall w,
  template.Execute tmpl api w =
  (fst (template.Execute tmpl api start),
   {| stdout := stdout w +:+ stdout (snd (template.Execute tmpl api start));
      stderr := stderr w |}).
Proof.
  induction tmpl as [|n tmpl IH]; intros w.
  - cbn [template.Execute]. run. now rewrite append_nil_r, World_eta.
  - destruct n as [text|fields]; cbn [template.Execute].
    + run. rewrite IH. rewrite (IH {| stdout := "" +:+ text; stderr := [] |}).
      cbn [fst snd stdout stderr]. now rewrite append_nil_l, append_assoc.
    + destruct (template.evalFieldChain (template.APIValue api) fields) as [v|e].
      * destruct (template.printValue v) as [p|e].
        -- run. rewrite IH. rewrite (IH {| stdout := "" +:+ p; stderr := [] |}).
           cbn [fst snd stdout stderr]. now rewrite append_nil_l, append_assoc.
        -- run. now rewrite append_nil_r, World_eta.
      * run. now rewrite append_nil_r, World_eta.
Qed.

Lemma action_ok_prints api fields :
  action_ok (template.ActionNode fields) = true ->
  exists p,
    match template.evalFieldChain (template.APIValue api) fields with
    | Ok v => template.printValue v
    | Fail e => Fail e
    end = Ok p.
Proof.
  unfold action_ok. intros H. apply orb_true_iff in H.
  destruct H as [H|H]; apply bool_decide_eq_true in H; subst fields.
  - exists (Name (API_Metadata api)). reflexivity.
  - destruct (Replicas (API_Spec api)) as [i|] eqn:E.
    + exists (strconv.Itoa i). cbn. now rewrite E.
    + exists "<nil>". cbn. now rewrite E.
Qed.

(** A template of such actions always executes to its end. *)
Lemma Execute_total tmpl api :
  forallb action_ok tmpl = true ->
  forall w, fst (template.Execute tmpl api w) = Running None.
Proof.
  induction tmpl as [|n tmpl IH]; intros Hok w; [reflexivity|].
  cbn [forallb] in Hok. apply andb_true_iff in Hok. destruct Hok as [Hn Hok].
  destruct n as [text|fields]; cbn [template.Execute].
  - run. now apply IH.
  - destruct (action_ok_prints api fields Hn) as [p Hp].
    destruct (template.evalFieldChain (template.APIValue api) fields) as [v|e];
      [|discriminate].
    rewrite Hp. run. now apply IH.
Qed.

Lemma Parse_t : template.Parse t = Ok deployment.
Proof. vm_compute. reflexivity. Qed.

Lemma deployment_ok : forallb action_ok deployment = true.
Proof. vm_compute. reflexivity. Qed.

(** The last block of [main]: the rendering is appended, whatever the
    configuration, and the process goes on to its normal end. *)
Lemma executeTemplate_run api w :
  executeTemplate api w =
  (Running tt, {| stdout := stdout w +:+ rendering api; stderr := stderr w |}).
Proof.
  unfold executeTemplate. rewrite Parse_t. run.
  rewrite Execute_append.
  rewrite (Execute_total deployment api deployment_ok start).
  unfold rendering. reflexivity.
Qed.

(** A successful pass through the defaulting block leaves the world
    alone, so it succeeds the same way from any world. *)
Lemma defaultReplicas_Running env api api' w :
  fst (defaultReplicas env api w) = Running api' ->
  forall w', defaultReplicas env api w' = (Running api', w').
Proof.
  intros H w'.
  destruct (defaultReplicas_cases env api w)
    as [(r & Hr & E) | [(d & Hn & Hne & Hd & E) | [(e & Hn & Hne & He & E) | (Hn & He & E)]]];
    rewrite E in H; cbn [fst] in H; try discriminate;
    injection H as <-.
  - now apply defaultReplicas_explicit with r.
  - now apply defaultReplicas_env.
  - now apply defaultReplicas_fallback.
Qed.

(** ** The whole program *)

Section Main.

Variable Decode : yaml.Decoder -> API -> Result API.

(** After a successful decoding: the upstream stream and the separator
    are out, and the rest is the defaulting and the template. *)
Lemma main_decoded env upstream api :
  Decode (decoder_of env) API_zero = Ok api ->
  main Decode env (complete upstream) start =
  (api' ← defaultReplicas env api; executeTemplate api')
    {| stdout := upstream +:+ separator; stderr := [] |}.
Proof.
  intros H. unfold main.
  rewrite bind_run, (decodeConfig_Ok Decode env api start H).
  rewrite bind_run, copyInput_complete. reflexivity.
Qed.

(** A run whose configuration resolves to [api']. *)
Lemma main_resolved env upstream api api' :
  Decode (decoder_of env) API_zero = Ok api ->
  fst (defaultReplicas env api start) = Running api' ->
  main Decode env (complete upstream) start =
  (Running tt,
   {| stdout := upstream +:+ separator +:+ rendering api'; stderr := [] |}).
Proof.
  intros Hd Hr. rewrite (main_decoded env upstream api Hd).
  rewrite bind_run, (defaultReplicas_Running env api api' start Hr).
  rewrite executeTemplate_run. cbn [stdout stderr].
  now rewrite append_assoc.
Qed.

End Main.

(** * The claims *)

(** ** Resolution of the replica count *)

(** C1: the resolved replicas value follows the strict precedence. For
    every decoded configuration [api] and every environment: whenever the
    defaulting block resolves, the replicas field holds the value the
    precedence rule names (the explicit value; otherwise the parsed,
    non-empty environment default; otherwise 1) and nothing else changes;
    with an explicit value, zero included, the block resolves to that
    value whatever the environment holds; without one, a non-empty
    default that parses resolves to the parsed value; and with no or an
    empty default it resolves to 1. *)
Theorem C1_replicas_precedence (env : gmap string string) (api : API) (w : World) :
  (forall api' w',
      defaultReplicas env api w = (Running api', w') ->
      Replicas (API_Spec api') =
        Some (precedence (Replicas (API_Spec api)) (os.Getenv env "REPLICAS")) /\
      API_Metadata api' = API_Metadata api /\ w' = w) /\
  (forall r, Replicas (API_Spec api) = Some r ->
             forall env' : gmap string string,
               defaultReplicas env' api w = (Running api, w)) /\
  (forall d, Replicas (API_Spec api) = None ->
             os.Getenv env "REPLICAS" <> "" ->
             strconv.Atoi (os.Getenv env "REPLICAS") = Ok d ->
             defaultReplicas env api w = (Running (set_Replicas api (Some d)), w)) /\
  (Replicas (API_Spec api) = None ->
   os.Getenv env "REPLICAS" = "" ->
   defaultReplicas env api w = (Running (set_Replicas api (Some 1)), w)).
Proof.
  split; [|split; [|split]].
  - intros api' w' H. unfold precedence.
    destruct (defaultReplicas_cases env api w)
      as [(r & Hr & E) | [(d & Hn & Hne & Hd & E) | [(e & Hn & Hne & He & E) | (Hn & He & E)]]];
      rewrite E in H; try discriminate; injection H as <- <-.
    + now rewrite Hr.
    + rewrite Hn, Hd.
      destruct (String.eqb_spec (os.Getenv env "REPLICAS") "") as [E'|_];
        [contradiction|]. now cbn.
    + rewrite Hn, He. now cbn.
  - intros r Hr env'. now apply defaultReplicas_explicit with r.
  - intros d Hn Hne Hd. now apply defaultReplicas_env.
  - intros Hn He. now apply defaultReplicas_fallback.
Qed.

(** The rule at work: an explicit zero wins over a default of 7, a
    default of 7 is used when nothing is explicit, and 1 otherwise. *)
Lemma C1_replicas_precedence_witness :
  defaultReplicas (env_of config_mydb "7") (set_Replicas api_mydb (Some 0)) start =
    (Running (set_Replicas api_mydb (Some 0)), start) /\
  defaultReplicas (env_of config_mydb "7") api_mydb start =
    (Running (set_Replicas api_mydb (Some 7)), start) /\
  defaultReplicas (env_of config_mydb "") api_mydb start =
    (Running (set_Replicas api_mydb (Some 1)), start).
Proof.
  split; [|split].
  - refine (proj1 (proj2 (C1_replicas_precedence (env_of config_mydb "7")
                            (set_Replicas api_mydb (Some 0)) start))
              0 _ (env_of config_mydb "7")).
    reflexivity.
  - refine (proj1 (proj2 (proj2 (C1_replicas_precedence (env_of config_mydb "7")
                                   api_mydb start)))
              7 _ _ _).
    + reflexivity.
    + vm_compute. discriminate.
    + vm_compute. reflexivity.
  - refine (proj2 (proj2 (proj2 (C1_replicas_precedence (env_of config_mydb "")
                                   api_mydb start)))
              _ _).
    + reflexivity.
    + vm_compute. reflexivity.
Defined.

(** C5, as the specification states it, fails: with no explicit value and
    the default "-5", resolution succeeds with a negative replica count. *)
Lemma C5_counterexample :
  decodeConfig (yaml.Decode yaml.block_parse) (env_of config_mydb "-5") start =
    (Running api_mydb, start) /\
  defaultReplicas (env_of config_mydb "-5") api_mydb start =
    (Running (set_Replicas api_mydb (Some (-5))), start) /\
  ~ (0 <= -5).
Proof.
  split; [|split].
  - vm_compute. reflexivity.
  - vm_compute. reflexivity.
  - lia.
Qed.

(** C5, amended: whenever resolution succeeds, the replicas field is
    populated with an integer; that integer is negative only when it is
    the explicit value of the document or the parsed environment
    default. *)
Theorem C5_replicas_populated (env : gmap string string) (api api' : API) (w w' : World) :
  defaultReplicas env api w = (Running api', w') ->
  exists v,
    Replicas (API_Spec api') = Some v /\
    (v < 0 ->
     Replicas (API_Spec api) = Some v \/
     (Replicas (API_Spec api) = None /\
      strconv.Atoi (os.Getenv env "REPLICAS") = Ok v)).
Proof.
  intros H.
  destruct (defaultReplicas_cases env api w)
    as [(r & Hr & E) | [(d & Hn & Hne & Hd & E) | [(e & Hn & Hne & He & E) | (Hn & He & E)]]];
    rewrite E in H; try discriminate; injection H as <- <-.
  - exists r. split; [exact Hr | now left].
  - exists d. split; [reflexivity | right; now split].
  - exists 1. split; [reflexivity | lia].
Qed.

Lemma C5_replicas_populated_witness :
  exists v,
    Replicas (API_Spec (set_Replicas api_mydb (Some (-5)))) = Some v /\
    (v < 0 ->
     Replicas (API_Spec api_mydb) = Some v \/
     (Replicas (API_Spec api_mydb) = None /\
      strconv.Atoi (os.Getenv (env_of config_mydb "-5") "REPLICAS") = Ok v)).
Proof.
  refine (C5_replicas_populated (env_of config_mydb "-5") api_mydb
            (set_Replicas api_mydb (Some (-5))) start start _).
  vm_compute. reflexivity.
Defined.

(** C6: every integer supplied explicitly, or by an environment default
    that parses, is accepted and passed through unchanged, whatever its
    sign or size: the block goes on with exactly that value and prints no
    diagnostic. *)
Theorem C6_no_bound_validation (env : gmap string string) (api : API) (w : World) (v : Z) :
  (Replicas (API_Spec api) = Some v ->
   defaultReplicas env api w = (Running api, w)) /\
  (Replicas (API_Spec api) = None ->
   os.Getenv env "REPLICAS" <> "" ->
   strconv.Atoi (os.Getenv env "REPLICAS") = Ok v ->
   defaultReplicas env api w = (Running (set_Replicas api (Some v)), w) /\
   Replicas (API_Spec (set_Replicas api (Some v))) = Some v).
Proof.
  split.
  - intros Hv. now apply defaultReplicas_explicit with v.
  - intros Hn Hne Hv. split; [now apply defaultReplicas_env | reflexivity].
Qed.

(** A negative explicit value, and zero and a negative value from the
    environment. *)
Lemma C6_no_bound_validation_witness :
  defaultReplicas (env_of config_mydb "7") (set_Replicas api_mydb (Some (-4))) start =
    (Running (set_Replicas api_mydb (Some (-4))), start) /\
  defaultReplicas (env_of config_mydb "0") api_mydb start =
    (Running (set_Replicas api_mydb (Some 0)), start) /\
  defaultReplicas (env_of config_mydb "-9223372036854775808") api_mydb start =
    (Running (set_Replicas api_mydb (Some (-9223372036854775808))), start).
Proof.
  split; [|split].
  - refine (proj1 (C6_no_bound_validation (env_of config_mydb "7")
                     (set_Replicas api_mydb (Some (-4))) start (-4)) _).
    reflexivity.
  - refine (proj1 (proj2 (C6_no_bound_validation (env_of config_mydb "0")
                            api_mydb start 0) _ _ _)).
    + reflexivity.
    + vm_compute. discriminate.
    + vm_compute. reflexivity.
  - refine (proj1 (proj2 (C6_no_bound_validation
                            (env_of config_mydb "-9223372036854775808")
                            api_mydb start (-9223372036854775808)) _ _ _)).
    + reflexivity.
    + vm_compute. discriminate.
    + vm_compute. reflexivity.
Defined.

(** ** Composition of the output *)

Section Composition.

Variable Decode : yaml.Decoder -> API -> Result API.


(** C3, amended: when the document omits spec.replicas and the
    environment default is non-empty and does not parse as an integer,
    the process prints the parse error and exits with status 1; no part
    of the template is rendered, and the output holds what was written
    before the default was read: the upstream stream and the separator. *)
Theorem C3_invalid_default (env : gmap string string) (upstream : string)
    (api : API) (e : error) :
  Decode (decoder_of env) API_zero = Ok api ->
  Replicas (API_Spec api) = None ->
  os.Getenv env "REPLICAS" <> "" ->
  strconv.Atoi (os.Getenv env "REPLICAS") = Fail e ->
  main Decode env (complete upstream) start =
    (Exited 1, {| stdout := upstream +:+ separator; stderr := [e] |}).
Proof.
  intros Hd Hn Hne He. rewrite (main_decoded Decode env upstream api Hd).
  rewrite bind_run.
  now rewrite (defaultReplicas_env_invalid env api e _ Hn Hne He).
Qed.

(** C4: when the decoding of the configuration document fails, as it
    does for a document that is not syntactically valid, the process
    prints the error and exits with status 1 before anything is written:
    the output is empty, whatever the standard input holds. *)
Theorem C4_parse_error_no_output (env : gmap string string) (stdin : Reader)
    (e : error) :
  Decode (decoder_of env) API_zero = Fail e ->
  main Decode env stdin start = (Exited 1, {| stdout := ""; stderr := [e] |}).
Proof.
  intros Hd. unfold main.
  now rewrite bind_run, (decodeConfig_Fail Decode env e start Hd).
Qed.

(** C7: for the upstream content "A\n" and the resolved configuration
    {name: "mydb", replicas: 3}, the output is "A\n\n---\n" followed by
    the rendered template; in the rendering each of the five [labels:]
    blocks holds [app: mydb-cockroachdb], every [app:] value, nine of
    them, reads mydb-cockroachdb, the replica count reads 3, and no
    action is left unrendered. *)
Theorem C7_mydb_example (env : gmap string string) (api : API) :
  Decode (decoder_of env) API_zero = Ok api ->
  fst (defaultReplicas env api start) = Running api_mydb3 ->
  main Decode env (complete ("A" +:+ nl)) start =
    (Running tt,
     {| stdout := ("A" +:+ nl +:+ nl +:+ "---" +:+ nl) +:+ rendering api_mydb3;
        stderr := [] |}) /\
  occurrences ("labels:" +:+ nl) (rendering api_mydb3) = 5%nat /\
  occurrences ("  labels:" +:+ nl +:+ "    app: mydb-cockroachdb" +:+ nl)
    (rendering api_mydb3) = 4%nat /\
  occurrences ("      labels:" +:+ nl +:+ "        app: mydb-cockroachdb" +:+ nl)
    (rendering api_mydb3) = 1%nat /\
  occurrences "app: " (rendering api_mydb3) = 9%nat /\
  occurrences ("app: mydb-cockroachdb" +:+ nl) (rendering api_mydb3) = 9%nat /\
  occurrences ("  replicas: 3" +:+ nl) (rendering api_mydb3) = 1%nat /\
  occurrences "{{" (rendering api_mydb3) = 0%nat.
Proof.
  intros Hd Hr. split.
  - rewrite (main_resolved Decode env ("A" +:+ nl) api api_mydb3 Hd Hr).
    unfold separator. now rewrite !append_assoc.
  - repeat split; vm_compute; reflexivity.
Qed.

(** C9: two invocations whose configurations resolve to the same value,
    on the same upstream content, end the same way with byte-identical
    output, even when their documents and environments differ. *)
Theorem C9_deterministic (env1 env2 : gmap string string) (upstream : string)
    (api1 api2 resolved : API) :
  Decode (decoder_of env1) API_zero = Ok api1 ->
  Decode (decoder_of env2) API_zero = Ok api2 ->
  fst (defaultReplicas env1 api1 start) = Running resolved ->
  fst (defaultReplicas env2 api2 start) = Running resolved ->
  main Decode env1 (complete upstream) start =
  main Decode env2 (complete upstream) start.
Proof.
  intros Hd1 Hd2 Hr1 Hr2.
  rewrite (main_resolved Decode env1 upstream api1 resolved Hd1 Hr1).
  now rewrite (main_resolved Decode env2 upstream api2 resolved Hd2 Hr2).
Qed.

End Composition.

(** ** The decoder *)

Section Unmarshal.

Context {T : Type} (typ : string)
        (field : string -> option (yaml.Node -> T -> T * list string)).

(** Without [KnownFields], an entry whose key names no field changes
    nothing. *)
Lemma mappingStruct_step_unknown acc kv :
  field (fst kv) = None ->
  yaml.mappingStruct_step typ field false acc kv = acc.
Proof. intros H. unfold yaml.mappingStruct_step. now rewrite H. Qed.

Lemma fold_keep keys content : forall acc,
  (forall k, k ∉ keys -> field k = None) ->
  fold_left (yaml.mappingStruct_step typ field false) (yaml.keep keys content) acc =
  fold_left (yaml.mappingStruct_step typ field false) content acc.
Proof.
  induction content as [|kv content IH]; intros acc Hf; [reflexivity|].
  unfold yaml.keep in *. cbn [List.filter fold_left].
  case_bool_decide as Hk; cbn [fold_left].
  - now apply IH.
  - rewrite (mappingStruct_step_unknown acc kv (Hf _ Hk)). now apply IH.
Qed.

Lemma mappingStruct_keep keys content out :
  (forall k, k ∉ keys -> field k = None) ->
  yaml.mappingStruct typ field false (yaml.keep keys content) out =
  yaml.mappingStruct typ field false content out.
Proof. intros Hf. unfold yaml.mappingStruct. now apply fold_keep. Qed.

Lemma unmarshalStruct_known_part_of keys n out :
  (forall k, k ∉ keys -> field k = None) ->
  yaml.unmarshalStruct typ field false (yaml.known_part_of keys n) out =
  yaml.unmarshalStruct typ field false n out.
Proof.
  intros Hf. destruct n as [value|content|content]; try reflexivity.
  cbn [yaml.known_part_of yaml.unmarshalStruct]. now apply mappingStruct_keep.
Qed.

Lemma fold_map (g : string * yaml.Node -> string * yaml.Node) content :
  (forall acc kv, yaml.mappingStruct_step typ field false acc (g kv) =
                  yaml.mappingStruct_step typ field false acc kv) ->
  forall acc,
    fold_left (yaml.mappingStruct_step typ field false) (map g content) acc =
    fold_left (yaml.mappingStruct_step typ field false) content acc.
Proof.
  intros Hg. induction content as [|kv content IH]; intros acc; [reflexivity|].
  cbn [map fold_left]. now rewrite Hg, IH.
Qed.

End Unmarshal.

Lemma Metadata_field_unknown k : k ∉ ["name"] -> yaml.Metadata_field k = None.
Proof.
  intros Hk. unfold yaml.Metadata_field.
  destruct (String.eqb_spec k "name") as [->|_]; [|reflexivity].
  exfalso. apply Hk. set_solver.
Qed.

Lemma Spec_field_unknown k : k ∉ ["replicas"] -> yaml.Spec_field k = None.
Proof.
  intros Hk. unfold yaml.Spec_field.
  destruct (String.eqb_spec k "replicas") as [->|_]; [|reflexivity].
  exfalso. apply Hk. set_solver.
Qed.

Lemma API_field_unknown k : k ∉ ["metadata"; "spec"] -> yaml.API_field false k = None.
Proof.
  intros Hk. unfold yaml.API_field.
  destruct (String.eqb_spec k "metadata") as [->|_]; [exfalso; apply Hk; set_solver|].
  destruct (String.eqb_spec k "spec") as [->|_]; [exfalso; apply Hk; set_solver|].
  reflexivity.
Qed.

(** With [KnownFields(false)], decoding a document and decoding its known
    part give the same object and the same errors. *)
Lemma unmarshal_known_part n out :
  yaml.unmarshal false (yaml.known_part n) out = yaml.unmarshal false n out.
Proof.
  destruct n as [value|content|content]; try reflexivity.
  unfold yaml.unmarshal. cbn [yaml.known_part yaml.unmarshalStruct].
  unfold yaml.mappingStruct. rewrite fold_map.
  - apply fold_keep, API_field_unknown.
  - intros acc [k n]. cbn [fst snd].
    destruct (String.eqb_spec k "metadata") as [->|Hm].
    + unfold yaml.mappingStruct_step. cbn [fst snd].
      change (yaml.API_field false "metadata") with
        (Some (fun (n : yaml.Node) (out : API) =>
                 let r := yaml.unmarshalStruct "main.Metadata" yaml.Metadata_field
                            false n (API_Metadata out) in
                 ({| API_Metadata := fst r; API_Spec := API_Spec out |}, snd r))).
      cbv beta iota zeta.
      now rewrite (unmarshalStruct_known_part_of "main.Metadata" yaml.Metadata_field
                     ["name"] n _ Metadata_field_unknown).
    + unfold yaml.mappingStruct_step. cbn [fst snd]. unfold yaml.API_field.
      destruct (String.eqb_spec k "metadata") as [E|_]; [contradiction|].
      destruct (String.eqb_spec k "spec") as [->|_]; [|reflexivity].
      cbv beta iota zeta.
      now rewrite (unmarshalStruct_known_part_of "main.Spec" yaml.Spec_field
                     ["replicas"] n _ Spec_field_unknown).
Qed.

Section Decoder.

Variable parse : string -> yaml.ParseOutcome.

(** C8: with the decoder as [main] sets it up, unknown and extra fields
    never make the decoding fail and never change its result: a document
    decodes exactly as its known part (what is left of it when every
    entry other than metadata.name and spec.replicas is removed) does,
    to the same object or to the same errors; so two documents that
    differ only in unknown fields are decoded alike by [main]. *)
Theorem C8_unknown_fields_ignored (env env' : gmap string string)
    (n n' : yaml.Node) (w : World) :
  parse (os.Getenv env "API_CONFIG") = yaml.Document n ->
  parse (os.Getenv env' "API_CONFIG") = yaml.Document n' ->
  yaml.known_part n = yaml.known_part n' ->
  yaml.unmarshal false n API_zero = yaml.unmarshal false (yaml.known_part n) API_zero /\
  yaml.Decode parse (decoder_of env) API_zero =
    yaml.Decode parse (decoder_of env') API_zero /\
  decodeConfig (yaml.Decode parse) env w = decodeConfig (yaml.Decode parse) env' w.
Proof.
  intros Hn Hn' Hk.
  assert (Hd : yaml.Decode parse (decoder_of env) API_zero =
               yaml.Decode parse (decoder_of env') API_zero).
  { unfold yaml.Decode, decoder_of, yaml.KnownFields, yaml.NewDecoder.
    cbn [yaml.input yaml.knownFields]. rewrite Hn, Hn'.
    rewrite <- (unmarshal_known_part n), <- (unmarshal_known_part n').
    now rewrite Hk. }
  split; [|split].
  - now rewrite unmarshal_known_part.
  - exact Hd.
  - unfold decodeConfig. fold (decoder_of env) (decoder_of env'). now rewrite Hd.
Qed.

(** In the model a text that is not syntactically valid makes [Decode]
    fail with the parser's error. *)
Lemma Decode_SyntaxError (d : yaml.Decoder) (v : API) (msg : string) :
  parse (yaml.input d) = yaml.SyntaxError msg ->
  yaml.Decode parse d v = Fail (yaml_syntax_error msg).
Proof. intros H. unfold yaml.Decode. now rewrite H. Qed.

(** C10: the empty configuration document holds no document, so the
    decoding fails with [io.EOF] and the process exits with status 1 and
    an empty output, although a document that gives neither
    metadata.name nor spec.replicas (an empty mapping) decodes to the
    zero object without error. *)
Theorem C10_empty_document (env : gmap string string) (stdin : Reader) :
  parse "" = yaml.NoDocument ->
  os.Getenv env "API_CONFIG" = "" ->
  yaml.Decode parse (decoder_of env) API_zero = Fail io_EOF /\
  main (yaml.Decode parse) env stdin start =
    (Exited 1, {| stdout := ""; stderr := [io_EOF] |}) /\
  (forall env' : gmap string string,
      parse (os.Getenv env' "API_CONFIG") = yaml.Document (yaml.MappingNode []) ->
      yaml.Decode parse (decoder_of env') API_zero = Ok API_zero).
Proof.
  intros Hp He.
  assert (Hd : yaml.Decode parse (decoder_of env) API_zero = Fail io_EOF).
  { unfold yaml.Decode, decoder_of, yaml.KnownFields, yaml.NewDecoder.
    cbn [yaml.input]. now rewrite He, Hp. }
  split; [exact Hd|split].
  - unfold main.
    now rewrite bind_run, (decodeConfig_Fail (yaml.Decode parse) env io_EOF start Hd).
  - intros env' Hm. unfold yaml.Decode, decoder_of, yaml.KnownFields, yaml.NewDecoder.
    cbn [yaml.input]. now rewrite Hm.
Qed.

End Decoder.

(** ** The claims at work

    The theorems above at concrete inputs, with the parser of the
    documented document shape in the place of the decoder's parser. *)

(** [KnownFields(true)] would have rejected the document that
    [KnownFields(false)] accepts. *)
Example KnownFields_matters :
  yaml.Decode yaml.block_parse
    (yaml.KnownFields (yaml.NewDecoder config_mydb3) false) API_zero = Ok api_mydb3 /\
  yaml.Decode yaml.block_parse
    (yaml.KnownFields (yaml.NewDecoder config_mydb3) true) API_zero =
  Fail (yaml_TypeError
          ["field labels not found in type main.Metadata";
           "field paused not found in type main.Spec";
           "field owner not found in type main.API"]).
Proof. split; vm_compute; reflexivity. Qed.


(** C3, as the specification states it, fails: with the default "abc"
    and no explicit replicas the process exits with status 1, but the
    upstream stream and the separator are already on the output. *)
Lemma C3_counterexample :
  decodeConfig (yaml.Decode yaml.block_parse) (env_of config_mydb "abc") start =
    (Running api_mydb, start) /\
  strconv.Atoi "abc" = Fail (NumError "Atoi" "abc" ErrSyntax) /\
  main (yaml.Decode yaml.block_parse) (env_of config_mydb "abc")
    (complete ("A" +:+ nl)) start =
    (Exited 1,
     {| stdout := "A" +:+ nl +:+ nl +:+ "---" +:+ nl;
        stderr := [NumError "Atoi" "abc" ErrSyntax] |}) /\
  stdout (snd (main (yaml.Decode yaml.block_parse) (env_of config_mydb "abc")
                 (complete ("A" +:+ nl)) start)) <> "".
Proof.
  repeat split; try (vm_compute; reflexivity).
  vm_compute. discriminate.
Qed.

Lemma C3_invalid_default_witness :
  main (yaml.Decode yaml.block_parse) (env_of config_mydb "abc")
    (complete ("A" +:+ nl)) start =
  (Exited 1,
   {| stdout := ("A" +:+ nl) +:+ separator;
      stderr := [NumError "Atoi" "abc" ErrSyntax] |}).
Proof.
  refine (C3_invalid_default (yaml.Decode yaml.block_parse)
            (env_of config_mydb "abc") ("A" +:+ nl) api_mydb _ _ _ _ _).
  - vm_compute. reflexivity.
  - reflexivity.
  - vm_compute. discriminate.
  - vm_compute. reflexivity.
Defined.

Lemma C4_parse_error_no_output_witness :
  main (yaml.Decode yaml.block_parse) (env_of "metadata" "3")
    (complete ("A" +:+ nl)) start =
  (Exited 1,
   {| stdout := "";
      stderr := [yaml_syntax_error "yaml: could not find expected ':'"] |}).
Proof.
  refine (C4_parse_error_no_output (yaml.Decode yaml.block_parse)
            (env_of "metadata" "3") (complete ("A" +:+ nl)) _ _).
  vm_compute. reflexivity.
Defined.

Lemma C7_mydb_example_witness :
  main (yaml.Decode yaml.block_parse) (env_of config_mydb3 "7")
    (complete ("A" +:+ nl)) start =
  (Running tt,
   {| stdout := ("A" +:+ nl +:+ nl +:+ "---" +:+ nl) +:+ rendering api_mydb3;
      stderr := [] |}).
Proof.
  refine (proj1 (C7_mydb_example (yaml.Decode yaml.block_parse)
                   (env_of config_mydb3 "7") api_mydb3 _ _)).
  - vm_compute. reflexivity.
  - vm_compute. reflexivity.
Defined.

(** An explicit 3 and a defaulted 3 give the same output. *)
Lemma C9_deterministic_witness :
  main (yaml.Decode yaml.block_parse) (env_of config_mydb3 "7")
    (complete ("A" +:+ nl)) start =
  main (yaml.Decode yaml.block_parse) (env_of config_mydb "3")
    (complete ("A" +:+ nl)) start.
Proof.
  refine (C9_deterministic (yaml.Decode yaml.block_parse)
            (env_of config_mydb3 "7") (env_of config_mydb "3") ("A" +:+ nl)
            api_mydb3 api_mydb api_mydb3 _ _ _ _).
  - vm_compute. reflexivity.
  - vm_compute. reflexivity.
  - vm_compute. reflexivity.
  - vm_compute. reflexivity.
Defined.

Lemma C8_unknown_fields_ignored_witness :
  yaml.Decode yaml.block_parse (decoder_of (env_of config_mydb3 "")) API_zero =
  yaml.Decode yaml.block_parse (decoder_of (env_of config_mydb3_plain "")) API_zero.
Proof.
  refine (proj1 (proj2 (C8_unknown_fields_ignored yaml.block_parse
                          (env_of config_mydb3 "") (env_of config_mydb3_plain "")
                          _ _ start _ _ _))).
  - vm_compute. reflexivity.
  - vm_compute. reflexivity.
  - vm_compute. reflexivity.
Defined.

Lemma C10_empty_document_witness :
  main (yaml.Decode yaml.block_parse) (env_of "" "3") (complete ("A" +:+ nl)) start =
  (Exited 1, {| stdout := ""; stderr := [io_EOF] |}).
Proof.
  refine (proj1 (proj2 (C10_empty_document yaml.block_parse (env_of "" "3")
                          (complete ("A" +:+ nl)) _ _))).
  - vm_compute. reflexivity.
  - vm_compute. reflexivity.
Defined.

(** * Further properties of the program *)

(** ** [strconv.Atoi] reads exactly the decimal numerals of an [int] *)

Lemma byte_of_range c : 0 <= byte_of c < 256.
Proof.
  unfold byte_of. pose proof (N_ascii_bounded c). lia.
Qed.

Lemma isDigit_sub c :
  isDigit c = true ->
  byte_sub (byte_of c) 48 = byte_of c - 48 /\ 0 <= byte_of c - 48 <= 9.
Proof.
  unfold isDigit, byte_sub. intros H. apply andb_true_iff in H.
  destruct H as [H1 H2]. apply Z.leb_le in H1, H2.
  rewrite Z.mod_small by lia. lia.
Qed.

Lemma not_isDigit_sub c : isDigit c = false -> 9 < byte_sub (byte_of c) 48.
Proof.
  unfold isDigit, byte_sub. intros H. pose proof (byte_of_range c) as R.
  apply andb_false_iff in H. destruct H as [H|H].
  - apply Z.leb_gt in H.
    replace (byte_of c - 48) with ((byte_of c + 208) + (-1) * 256) by lia.
    rewrite Z.mod_add by lia. rewrite Z.mod_small by lia. lia.
  - apply Z.leb_gt in H. rewrite Z.mod_small by lia. lia.
Qed.

Lemma Atoi_loop_spec s : forall n,
  strconv.Atoi_loop s n = if allDigits s then Some (horner s n) else None.
Proof.
  induction s as [|c s IH]; intros n; [reflexivity|].
  cbn [strconv.Atoi_loop allDigits horner].
  destruct (isDigit c) eqn:D.
  - destruct (isDigit_sub c D) as [E R]. rewrite E.
    destruct (Z.ltb_spec 9 (byte_of c - 48)); [lia|]. cbn [andb]. apply IH.
  - pose proof (not_isDigit_sub c D) as R.
    destruct (Z.ltb_spec 9 (byte_sub (byte_of c) 48)); [reflexivity|lia].
Qed.

Lemma horner_lower s : forall n, allDigits s = true -> 0 <= n -> n <= horner s n.
Proof.
  induction s as [|c s IH]; intros n H Hn; cbn [horner]; [lia|].
  cbn [allDigits] in H. apply andb_true_iff in H. destruct H as [D H].
  destruct (isDigit_sub c D) as [_ R].
  specialize (IH (n * 10 + (byte_of c - 48)) H). lia.
Qed.

Lemma horner_upper s : forall n,
  allDigits s = true -> 0 <= n ->
  horner s n < (n + 1) * 10 ^ Z.of_nat (String.length s).
Proof.
  induction s as [|c s IH]; intros n H Hn; cbn [horner String.length].
  - change (10 ^ Z.of_nat 0) with 1. lia.
  - cbn [allDigits] in H. apply andb_true_iff in H. destruct H as [D H].
    destruct (isDigit_sub c D) as [_ R].
    specialize (IH (n * 10 + (byte_of c - 48)) H ltac:(lia)).
    rewrite Nat2Z.inj_succ, Z.pow_succ_r by lia.
    assert (0 < 10 ^ Z.of_nat (String.length s)) by (apply Z.pow_pos_nonneg; lia).
    nia.
Qed.

Lemma maxUint64_val : strconv.maxUint64 = 18446744073709551615.
Proof. reflexivity. Qed.

Lemma ParseUint_loop_spec s0 s : forall n m,
  0 <= n <= strconv.maxUint64 ->
  strconv.ParseUint_loop s0 s n = Ok m <->
  allDigits s = true /\ horner s n <= strconv.maxUint64 /\ m = horner s n.
Proof.
  induction s as [|c s IH]; intros n m Hn.
  - cbn [strconv.ParseUint_loop allDigits horner]. split.
    + intros [= <-]. repeat split; lia.
    + intros (_ & _ & ->). reflexivity.
  - cbn [strconv.ParseUint_loop allDigits horner]. fold (isDigit c).
    destruct (isDigit c) eqn:D; cbn [andb]; cbv zeta.
    + destruct (isDigit_sub c D) as [E R]. rewrite E.
      change (strconv.maxUint64 / 10 + 1) with 1844674407370955162.
      change (2 ^ strconv.intSize - 1) with 18446744073709551615.
      change (2 ^ 64) with 18446744073709551616.
      rewrite maxUint64_val in *.
      destruct (Z.leb_spec 1844674407370955162 n) as [C|C].
      * split; [discriminate|]. intros (Hd & B & _).
        pose proof (horner_lower s (n * 10 + (byte_of c - 48)) Hd ltac:(lia)). lia.
      * destruct (Z_lt_ge_dec (n * 10 + (byte_of c - 48)) 18446744073709551616) as [S|S].
        -- rewrite Z.mod_small by lia.
           destruct (Z.ltb_spec (n * 10 + (byte_of c - 48)) (n * 10)); [lia|].
           destruct (Z.ltb_spec 18446744073709551615 (n * 10 + (byte_of c - 48))); [lia|].
           cbn [orb]. change 18446744073709551615 with strconv.maxUint64.
           apply IH. change strconv.maxUint64 with 18446744073709551615. lia.
        -- replace ((n * 10 + (byte_of c - 48)) mod 18446744073709551616)
             with (n * 10 + (byte_of c - 48) - 18446744073709551616).
           2:{ apply Z.mod_unique with (q := 1); lia. }
           destruct (Z.ltb_spec (n * 10 + (byte_of c - 48) - 18446744073709551616) (n * 10));
             [|lia].
           cbn [orb]. split; [discriminate|]. intros (Hd & B & _).
           pose proof (horner_lower s (n * 10 + (byte_of c - 48)) Hd ltac:(lia)). lia.
    + split; [discriminate|]. intros (H & _). discriminate.
Qed.

Lemma ParseUint_spec s m :
  strconv.ParseUint s = Ok m <->
  s <> "" /\ allDigits s = true /\ horner s 0 <= strconv.maxUint64 /\ m = horner s 0.
Proof.
  destruct s as [|c s].
  - cbn. split; [discriminate|]. intros (H & _). contradiction.
  - unfold strconv.ParseUint.
    rewrite (ParseUint_loop_spec (String c s) (String c s) 0 m)
      by (rewrite maxUint64_val; lia).
    split; [intros H; split; [discriminate | exact H] | intros (_ & H); exact H].
Qed.

Lemma horner_nonneg s : allDigits s = true -> 0 <= horner s 0.
Proof. intros H. now apply horner_lower. Qed.


Lemma ParseInt_tail (neg : bool) (ds s0 : string) (v : Z) :
  match strconv.ParseUint ds with
  | Ok un =>
      if negb neg && (2 ^ (strconv.intSize - 1) <=? un)
      then Fail (strconv.rangeError "ParseInt" s0)
      else if neg && (2 ^ (strconv.intSize - 1) <? un)
           then Fail (strconv.rangeError "ParseInt" s0)
           else Ok (if neg then - un else un)
  | Fail e =>
      if strconv.is_ErrRange e
      then
        if negb neg && (2 ^ (strconv.intSize - 1) <=? strconv.maxUint64)
        then Fail (strconv.rangeError "ParseInt" s0)
        else if neg && (2 ^ (strconv.intSize - 1) <? strconv.maxUint64)
             then Fail (strconv.rangeError "ParseInt" s0)
             else Ok (if neg then - strconv.maxUint64 else strconv.maxUint64)
      else Fail (strconv.syntaxError "ParseInt" s0)
  end = Ok v <->
  ds <> "" /\ allDigits ds = true /\ v = signed neg (horner ds 0) /\ in_int v.
Proof.
  change (2 ^ (strconv.intSize - 1)) with 9223372036854775808.
  unfold in_int. change (2 ^ 63) with 9223372036854775808.
  destruct (strconv.ParseUint ds) as [un|e] eqn:P.
  - apply ParseUint_spec in P. destruct P as (Hne & Hd & Hb & ->).
    pose proof (horner_nonneg ds Hd) as Hh.
    destruct neg; cbn [negb andb signed].
    + destruct (Z.ltb_spec 9223372036854775808 (horner ds 0)).
      * split; [discriminate|]. intros (_ & _ & -> & R). lia.
      * split.
        -- intros [= <-]. repeat split; trivial; lia.
        -- intros (_ & _ & -> & _). reflexivity.
    + destruct (Z.leb_spec 9223372036854775808 (horner ds 0)).
      * split; [discriminate|]. intros (_ & _ & -> & R). lia.
      * split.
        -- intros [= <-]. repeat split; trivial; lia.
        -- intros (_ & _ & -> & _). reflexivity.
  - assert (N : ~ (ds <> "" /\ allDigits ds = true /\
                   horner ds 0 <= strconv.maxUint64)).
    { intros (A & B & C).
      assert (Q : strconv.ParseUint ds = Ok (horner ds 0))
        by (apply ParseUint_spec; repeat split; trivial).
      congruence. }
    rewrite maxUint64_val in *.
    split.
    + destruct (strconv.is_ErrRange e); [|discriminate].
      destruct neg; cbn; discriminate.
    + intros (A & B & -> & R). exfalso. apply N. repeat split; trivial.
      pose proof (horner_nonneg ds B). unfold signed in R. destruct neg; lia.
Qed.

Lemma eqb_plus_minus c : Ascii.eqb c "+" = true -> Ascii.eqb c "-" = false.
Proof. intros H. apply Ascii.eqb_eq in H. now subst. Qed.

Lemma ParseInt_spec s v :
  strconv.ParseInt s = Ok v <-> decimal s = Some v /\ in_int v.
Proof.
  destruct s as [|c rest].
  - cbn. split; [discriminate | intros [H _]; discriminate].
  - unfold strconv.ParseInt, decimal.
    destruct (Ascii.eqb c "+") eqn:Ep.
    + rewrite (eqb_plus_minus c Ep). cbn [orb]. cbv beta iota zeta.
      rewrite (ParseInt_tail false rest (String c rest) v). unfold signed.
      destruct (String.eqb_spec rest "") as [->|Hr]; cbn [negb andb].
      * split; [intros (H & _); contradiction | intros (H & _); discriminate].
      * destruct (allDigits rest).
        -- split; [intros (_ & _ & -> & R); now split | intros ([= <-] & R); split; [exact Hr | split; [reflexivity | split; [reflexivity | exact R]]]].
        -- split; [intros (_ & H & _); discriminate | intros (H & _); discriminate].
    + destruct (Ascii.eqb c "-") eqn:Em; cbn [orb]; cbv beta iota zeta.
      * rewrite (ParseInt_tail true rest (String c rest) v). unfold signed.
        destruct (String.eqb_spec rest "") as [->|Hr]; cbn [negb andb].
        -- split; [intros (H & _); contradiction | intros (H & _); discriminate].
        -- destruct (allDigits rest).
           ++ split; [intros (_ & _ & -> & R); now split | intros ([= <-] & R); split; [exact Hr | split; [reflexivity | split; [reflexivity | exact R]]]].
           ++ split; [intros (_ & H & _); discriminate | intros (H & _); discriminate].
      * rewrite (ParseInt_tail false (String c rest) (String c rest) v). unfold signed.
        change (String.eqb (String c rest) "") with false. cbn [negb andb].
        destruct (allDigits (String c rest)).
        -- split; [intros (_ & _ & -> & R); now split
                  | intros ([= <-] & R);
                    split; [discriminate | split; [reflexivity | split; [reflexivity | exact R]]]].
        -- split; [intros (_ & H & _); discriminate | intros (H & _); discriminate].
Qed.

Lemma fast_in_int ds (neg : bool) :
  allDigits ds = true -> Z.of_nat (String.length ds) < 19 ->
  in_int (if neg then - horner ds 0 else horner ds 0).
Proof.
  intros Hd Hl. pose proof (horner_nonneg ds Hd) as H0.
  pose proof (horner_upper ds 0 Hd ltac:(lia)) as H1.
  assert (10 ^ Z.of_nat (String.length ds) <= 10 ^ 18)
    by (apply Z.pow_le_mono_r; lia).
  unfold in_int. change (2 ^ 63) with 9223372036854775808.
  change (10 ^ 18) with 1000000000000000000 in *.
  destruct neg; lia.
Qed.

Lemma Atoi_slow s v :
  match strconv.ParseInt s with
  | Fail (NumError _ num err) => Fail (NumError "Atoi" num err)
  | r => r
  end = Ok v <-> strconv.ParseInt s = Ok v.
Proof.
  destruct (strconv.ParseInt s) as [x|e]; [reflexivity|].
  destruct e; split; discriminate.
Qed.

(** [strconv.Atoi] accepts exactly the decimal numerals of 64-bit
    integers: an optional sign and one or more digits, in range. *)
Lemma Atoi_spec s v :
  strconv.Atoi s = Ok v <-> decimal s = Some v /\ in_int v.
Proof.
  unfold strconv.Atoi. cbv zeta.
  destruct ((0 <? Z.of_nat (String.length s)) && (Z.of_nat (String.length s) <? 19))
    eqn:L.
  2:{ rewrite Atoi_slow. apply ParseInt_spec. }
  apply andb_true_iff in L. destruct L as [_ L]. apply Z.ltb_lt in L.
  destruct s as [|c rest]; [split; [discriminate | intros [H _]; discriminate]|].
  unfold decimal. cbn [String.length] in L.
  destruct (Ascii.eqb c "-" || Ascii.eqb c "+") eqn:Sg; cbn [andb].
  - destruct rest as [|c2 r2].
    + cbn. split; [discriminate | intros [H _]; discriminate].
    + change (String.eqb (String c2 r2) "") with false. cbn [negb andb].
      replace (Z.of_nat (String.length (String c2 r2)) <? 1) with false
        by (symmetry; apply Z.ltb_ge; cbn [String.length]; lia).
      rewrite Atoi_loop_spec.
      destruct (allDigits (String c2 r2)) eqn:D.
      * split.
        -- intros [= <-]. split; [reflexivity|].
           refine (fast_in_int (String c2 r2) (Ascii.eqb c "-") D _).
           cbn [String.length] in *. lia.
        -- intros ([= <-] & _). reflexivity.
      * split; [discriminate | intros [H _]; discriminate].
  - change (String.eqb (String c rest) "") with false. cbn [negb andb].
    rewrite Atoi_loop_spec.
    destruct (allDigits (String c rest)) eqn:D.
    + split.
      * intros [= <-]. split; [reflexivity|].
        refine (fast_in_int (String c rest) (Ascii.eqb c "-") D _).
        cbn [String.length] in *. lia.
      * intros ([= <-] & _). reflexivity.
    + split; [discriminate | intros [H _]; discriminate].
Qed.

(** ** Printing and reading back *)

Lemma allDigits_string_of_uint d :
  allDigits (DecimalString.NilEmpty.string_of_uint d) = true.
Proof. induction d; cbn [DecimalString.NilEmpty.string_of_uint allDigits]; trivial. Qed.

Lemma horner_of_uint_acc d : forall acc,
  horner (DecimalString.NilEmpty.string_of_uint d) (Zpos acc) =
  Zpos (Pos.of_uint_acc d acc).
Proof.
  induction d; intros acc;
    cbn [DecimalString.NilEmpty.string_of_uint horner Pos.of_uint_acc];
    trivial;
    rewrite <- IHd; f_equal; unfold byte_of; cbn [N_of_ascii N_of_digits Z.of_N];
    lia.
Qed.

Lemma horner_of_uint d :
  horner (DecimalString.NilEmpty.string_of_uint d) 0 = Z.of_N (Pos.of_uint d).
Proof.
  induction d;
    cbn [DecimalString.NilEmpty.string_of_uint horner Pos.of_uint Z.of_N];
    trivial;
    try (rewrite <- horner_of_uint_acc; f_equal; reflexivity).
Qed.

Lemma isDigit_not_sign c :
  isDigit c = true -> Ascii.eqb c "-" = false /\ Ascii.eqb c "+" = false.
Proof.
  intros H. split.
  - destruct (Ascii.eqb_spec c "-") as [->|]; [discriminate H | reflexivity].
  - destruct (Ascii.eqb_spec c "+") as [->|]; [discriminate H | reflexivity].
Qed.

Lemma string_of_uint_nonempty d :
  d <> Decimal.Nil -> DecimalString.NilEmpty.string_of_uint d <> "".
Proof. destruct d; cbn; congruence. Qed.

Lemma decimal_unsigned ds :
  ds <> "" -> allDigits ds = true -> decimal ds = Some (horner ds 0).
Proof.
  intros Hne Hd. destruct ds as [|c rest]; [contradiction|].
  unfold decimal. pose proof Hd as Hd'. cbn [allDigits] in Hd'.
  apply andb_true_iff in Hd'. destruct Hd' as [Hc _].
  destruct (isDigit_not_sign c Hc) as [-> ->]. cbn [orb].
  change (String.eqb (String c rest) "") with false. cbn [negb andb].
  now rewrite Hd.
Qed.

Lemma decimal_negative ds :
  ds <> "" -> allDigits ds = true -> decimal (String "-" ds) = Some (- horner ds 0).
Proof.
  intros Hne Hd. unfold decimal.
  change (Ascii.eqb "-" "-") with true. cbn [orb].
  destruct (String.eqb_spec ds "") as [E|_]; [contradiction|]. cbn [negb andb].
  now rewrite Hd.
Qed.

Lemma string_of_uint_to_uint p :
  DecimalString.NilZero.string_of_uint (Pos.to_uint p) =
  DecimalString.NilEmpty.string_of_uint (Pos.to_uint p).
Proof.
  pose proof (DecimalPos.Unsigned.to_uint_nonnil p) as H.
  unfold DecimalString.NilZero.string_of_uint.
  destruct (Pos.to_uint p); [contradiction | reflexivity ..].
Qed.

(** The decimal that [Itoa] prints reads back as the integer printed. *)
Lemma decimal_Itoa z : decimal (strconv.Itoa z) = Some z.
Proof.
  unfold strconv.Itoa. destruct z as [|p|p]; [reflexivity| |];
    cbn [Z.to_int DecimalString.NilZero.string_of_int];
    rewrite string_of_uint_to_uint.
  - rewrite decimal_unsigned.
    + now rewrite horner_of_uint, DecimalPos.Unsigned.of_to.
    + apply string_of_uint_nonempty, DecimalPos.Unsigned.to_uint_nonnil.
    + apply allDigits_string_of_uint.
  - rewrite decimal_negative.
    + now rewrite horner_of_uint, DecimalPos.Unsigned.of_to.
    + apply string_of_uint_nonempty, DecimalPos.Unsigned.to_uint_nonnil.
    + apply allDigits_string_of_uint.
Qed.

Lemma Atoi_Itoa z : in_int z -> strconv.Atoi (strconv.Itoa z) = Ok z.
Proof.
  intros R. apply Atoi_spec. split; [apply decimal_Itoa | exact R].
Qed.

Lemma Itoa_nonempty z : strconv.Itoa z <> "".
Proof.
  intros E. pose proof (decimal_Itoa z) as H. rewrite E in H. discriminate.
Qed.

(** ** The rendering is the template text with its actions filled in *)

Lemma eval_Name api :
  template.evalFieldChain (template.APIValue api) ["Metadata"; "Name"] =
  Ok (template.StringValue (Name (API_Metadata api))).
Proof. reflexivity. Qed.

Lemma eval_Replicas api :
  template.evalFieldChain (template.APIValue api) ["Spec"; "Replicas"] =
  Ok (template.IntPtrValue (Replicas (API_Spec api))).
Proof. reflexivity. Qed.

Lemma print_Replicas api :
  template.printValue (template.IntPtrValue (Replicas (API_Spec api))) =
  Ok (replicas_text api).
Proof. unfold replicas_text. now destruct (Replicas (API_Spec api)). Qed.

Lemma Execute_substitute tmpl api :
  forallb action_ok tmpl = true ->
  stdout (snd (template.Execute tmpl api start)) =
  substitute tmpl (Name (API_Metadata api)) (replicas_text api).
Proof.
  induction tmpl as [|n tmpl IH]; intros Hok; [reflexivity|].
  cbn [forallb] in Hok. apply andb_true_iff in Hok. destruct Hok as [Hn Hok].
  destruct n as [text|fields]; cbn [template.Execute substitute].
  - run. rewrite Execute_append. cbn [snd stdout]. rewrite (IH Hok). reflexivity.
  - unfold action_ok in Hn. apply orb_true_iff in Hn.
    destruct Hn as [Hn|Hn]; apply bool_decide_eq_true in Hn; subst fields.
    + rewrite eval_Name. cbn [template.printValue].
      rewrite bool_decide_eq_true_2 by reflexivity.
      run. rewrite Execute_append. cbn [snd stdout]. rewrite (IH Hok). reflexivity.
    + rewrite eval_Replicas.
      rewrite bool_decide_eq_false_2 by discriminate.
      rewrite print_Replicas.
      run. rewrite Execute_append. cbn [snd stdout]. rewrite (IH Hok). reflexivity.
Qed.

Lemma rendering_substitute api :
  rendering api = substitute deployment (Name (API_Metadata api)) (replicas_text api).
Proof. unfold rendering. apply Execute_substitute, deployment_ok. Qed.

Lemma length_append (a b : string) :
  String.length (a +:+ b) = (String.length a + String.length b)%nat.
Proof.
  induction a as [|x a IH]; [reflexivity|].
  rewrite append_cons. cbn [String.length]. now rewrite IH.
Qed.

Lemma substitute_app l1 l2 name reps :
  substitute (l1 ++ l2)%list name reps =
  substitute l1 name reps +:+ substitute l2 name reps.
Proof.
  induction l1 as [|n l1 IH]; [reflexivity|].
  destruct n as [text|fields]; cbn [app substitute]; rewrite IH;
    now rewrite append_assoc.
Qed.

Lemma substitute_length tmpl name reps :
  forallb action_ok tmpl = true ->
  Z.of_nat (String.length (substitute tmpl name reps)) =
  text_size tmpl
  + count_action ["Metadata"; "Name"] tmpl * Z.of_nat (String.length name)
  + count_action ["Spec"; "Replicas"] tmpl * Z.of_nat (String.length reps).
Proof.
  induction tmpl as [|n tmpl IH]; intros Hok; [reflexivity|].
  cbn [forallb] in Hok. apply andb_true_iff in Hok. destruct Hok as [Hn Hok].
  specialize (IH Hok).
  destruct n as [text|fields]; cbn [substitute text_size count_action];
    rewrite length_append, Nat2Z.inj_add.
  - lia.
  - unfold action_ok in Hn. apply orb_true_iff in Hn.
    destruct Hn as [Hn|Hn]; apply bool_decide_eq_true in Hn; subst fields.
    + rewrite (bool_decide_eq_true_2 _ eq_refl).
      rewrite bool_decide_eq_false_2 by discriminate. lia.
    + rewrite !bool_decide_eq_false_2 by discriminate.
      rewrite (bool_decide_eq_true_2 _ eq_refl). lia.
Qed.

Lemma substitute_Name tmpl name reps :
  substitute (template.ActionNode ["Metadata"; "Name"] :: tmpl) name reps =
  name +:+ substitute tmpl name reps.
Proof. reflexivity. Qed.

Lemma substitute_Replicas tmpl name reps :
  substitute (template.ActionNode ["Spec"; "Replicas"] :: tmpl) name reps =
  reps +:+ substitute tmpl name reps.
Proof. reflexivity. Qed.

Lemma substitute_Text text tmpl name reps :
  substitute (template.TextNode text :: tmpl) name reps =
  text +:+ substitute tmpl name reps.
Proof. reflexivity. Qed.

Lemma deployment_statefulset_spec :
  deployment =
  (firstn 20 deployment ++
   [template.TextNode
      (String.substring 0 (String.length (text_at 20) - 21) (text_at 20)
         +:+ ("spec:" +:+ nl +:+ "  serviceName: "));
    template.ActionNode ["Metadata"; "Name"];
    template.TextNode (nl +:+ "  replicas: ");
    template.ActionNode ["Spec"; "Replicas"];
    template.TextNode
      ((nl +:+ "  selector:" +:+ nl) +:+ template.after 13 (text_at 24))] ++
   skipn 25 deployment)%list.
Proof. vm_compute. reflexivity. Qed.

Lemma substitute_around l1 l2 a k1 k2 k3 b name reps :
  substitute
    (l1 ++ [template.TextNode (a +:+ k1);
            template.ActionNode ["Metadata"; "Name"];
            template.TextNode k2;
            template.ActionNode ["Spec"; "Replicas"];
            template.TextNode (k3 +:+ b)] ++ l2)%list name reps =
  (substitute l1 name reps +:+ a) +:+ k1 +:+ name +:+ k2 +:+ reps +:+ k3
    +:+ (b +:+ substitute l2 name reps).
Proof.
  rewrite !substitute_app.
  repeat (rewrite substitute_Text || rewrite substitute_Name
          || rewrite substitute_Replicas).
  change (substitute [] name reps) with "".
  rewrite append_nil_r, !append_assoc. reflexivity.
Qed.

(** ** The runs of [main] *)



Lemma set_Replicas_Metadata api r :
  API_Metadata (set_Replicas api r) = API_Metadata api.
Proof. now destruct api. Qed.

Section Runs.

Variable Decode : yaml.Decoder -> API -> Result API.





(** X4: [main] reads two variables of its environment and no other: two
    environments that give the same [API_CONFIG] and the same [REPLICAS]
    (an unset variable reads as the empty string) give the same run. *)
Theorem main_env_frame (env env' : gmap string string) (stdin : Reader) (w : World) :
  os.Getenv env "API_CONFIG" = os.Getenv env' "API_CONFIG" ->
  os.Getenv env "REPLICAS" = os.Getenv env' "REPLICAS" ->
  main Decode env stdin w = main Decode env' stdin w.
Proof.
  intros Hc Hr. unfold main, decodeConfig, defaultReplicas.
  now rewrite Hc, Hr.
Qed.

End Runs.

(** X5: when the defaulting block goes on, it has written nothing, on
    either stream, and the metadata of the configuration, its name, is
    what it was: only the replica count can change. *)
Theorem defaultReplicas_frame (env : gmap string string) (api api' : API)
    (w w' : World) :
  defaultReplicas env api w = (Running api', w') ->
  w' = w /\ API_Metadata api' = API_Metadata api.
Proof.
  intros H.
  destruct (defaultReplicas_cases env api w)
    as [(r & Hr & E) | [(d & Hn & Hne & Hv & E) | [(e & Hn & Hne & He & E) | (Hn & He & E)]]];
    rewrite E in H; try discriminate; injection H as <- <-;
    split; try reflexivity; apply set_Replicas_Metadata.
Qed.

(** X6: a resolved configuration is a fixed point of the defaulting
    block: run again on its own result, under any environment, the block
    changes nothing, fails on nothing and prints nothing. *)
Theorem defaultReplicas_stable (env : gmap string string) (api api' : API)
    (w w' : World) :
  defaultReplicas env api w = (Running api', w') ->
  forall (env' : gmap string string) (w2 : World),
    defaultReplicas env' api' w2 = (Running api', w2).
Proof.
  intros H env' w2.
  destruct (defaultReplicas_cases env api w)
    as [(r & Hr & E) | [(d & Hn & Hne & Hv & E) | [(e & Hn & Hne & He & E) | (Hn & He & E)]]];
    rewrite E in H; try discriminate; injection H as <- <-.
  - now apply defaultReplicas_explicit with r.
  - now apply defaultReplicas_explicit with d.
  - now apply defaultReplicas_explicit with 1.
Qed.

(** X7: which [REPLICAS] texts are accepted. With no explicit replica
    count and a non-empty [REPLICAS], the block resolves to [v] exactly
    when the text is a decimal numeral of [v], an optional sign [+] or
    [-] and then digits only, and [v] is in the range of a 64-bit [int];
    for every other text (spaces, a fraction, a base prefix, an
    underscore, a value out of range) it prints an error and exits with
    status 1. *)
Theorem default_accepted_iff (env : gmap string string) (api : API) (w : World) :
  Replicas (API_Spec api) = None ->
  os.Getenv env "REPLICAS" <> "" ->
  (forall v,
      defaultReplicas env api w = (Running (set_Replicas api (Some v)), w) <->
      decimal (os.Getenv env "REPLICAS") = Some v /\ in_int v) /\
  ((forall v, ~ (decimal (os.Getenv env "REPLICAS") = Some v /\ in_int v)) ->
   exists e,
     defaultReplicas env api w =
     (Exited 1, {| stdout := stdout w; stderr := stderr w ++ [e] |})).
Proof.
  intros Hn Hne. split.
  - intros v. rewrite <- Atoi_spec. split.
    + intros H.
      destruct (strconv.Atoi (os.Getenv env "REPLICAS")) as [d|e] eqn:Hd.
      * rewrite (defaultReplicas_env env api d w Hn Hne Hd) in H.
        now injection H as ->.
      * rewrite (defaultReplicas_env_invalid env api e w Hn Hne Hd) in H.
        discriminate.
    + intros Hv. now apply defaultReplicas_env.
  - intros Hno.
    destruct (strconv.Atoi (os.Getenv env "REPLICAS")) as [d|e] eqn:Hd.
    + exfalso. apply (Hno d). now apply Atoi_spec.
    + exists e. now apply defaultReplicas_env_invalid.
Qed.

(** X8: a replica count that the block supplies (from [REPLICAS] or the
    fallback 1) is in the range of a 64-bit [int], and the text the
    template prints for it reads back, by [strconv.Atoi], as the same
    count. *)
Theorem default_reads_back (env : gmap string string) (api api' : API)
    (w w' : World) :
  Replicas (API_Spec api) = None ->
  defaultReplicas env api w = (Running api', w') ->
  exists v,
    Replicas (API_Spec api') = Some v /\ in_int v /\
    strconv.Atoi (replicas_text api') = Ok v.
Proof.
  intros Hn H.
  destruct (defaultReplicas_cases env api w)
    as [(r & Hr & E) | [(d & _ & Hne & Hv & E) | [(e & _ & Hne & He & E) | (_ & He & E)]]];
    rewrite E in H; try discriminate; try congruence; injection H as <- <-.
  - apply Atoi_spec in Hv. destruct Hv as [_ R].
    exists d. split; [reflexivity|]. split; [exact R|].
    now apply Atoi_Itoa.
  - exists 1. split; [reflexivity|]. split; [unfold in_int; lia|reflexivity].
Qed.

(** X9: a [REPLICAS] variable written by [strconv.Itoa] goes through
    [main] unchanged: for every [z] in the range of a 64-bit [int], with
    no explicit replica count, [main] returns with the rendering for
    [z], and the text printed for the count is the text of the variable
    itself. *)
Theorem main_default_round_trip (Decode : yaml.Decoder -> API -> Result API)
    (env : gmap string string) (upstream : string) (api : API) (z : Z) :
  Decode (decoder_of env) API_zero = Ok api ->
  Replicas (API_Spec api) = None ->
  os.Getenv env "REPLICAS" = strconv.Itoa z ->
  in_int z ->
  main Decode env (complete upstream) start =
    (Running tt,
     {| stdout := upstream +:+ separator +:+ rendering (set_Replicas api (Some z));
        stderr := [] |}) /\
  replicas_text (set_Replicas api (Some z)) = os.Getenv env "REPLICAS".
Proof.
  intros Hd Hn Hr Hz. split; [|now rewrite Hr].
  apply main_resolved with api; [exact Hd|].
  rewrite (defaultReplicas_env env api z start Hn).
  - reflexivity.
  - rewrite Hr. apply Itoa_nonempty.
  - rewrite Hr. now apply Atoi_Itoa.
Qed.

(** The witnesses run the decoder on the block-mapping parser. *)



Lemma main_env_frame_witness :
  main (yaml.Decode yaml.block_parse) (env_of config_mydb "") (complete "A") start =
  main (yaml.Decode yaml.block_parse)
    {[ "API_CONFIG" := config_mydb; "HOME" := "/root" ]} (complete "A") start.
Proof.
  refine (main_env_frame (yaml.Decode yaml.block_parse) (env_of config_mydb "")
            {[ "API_CONFIG" := config_mydb; "HOME" := "/root" ]}
            (complete "A") start _ _).
  - vm_compute. reflexivity.
  - vm_compute. reflexivity.
Defined.

Lemma defaultReplicas_frame_witness :
  start = start /\
  API_Metadata (set_Replicas api_mydb (Some 7)) = API_Metadata api_mydb.
Proof.
  refine (defaultReplicas_frame (env_of config_mydb "7") api_mydb
            (set_Replicas api_mydb (Some 7)) start start _).
  vm_compute. reflexivity.
Defined.

Lemma defaultReplicas_stable_witness :
  defaultReplicas (env_of config_mydb "abc") (set_Replicas api_mydb (Some 7)) start =
  (Running (set_Replicas api_mydb (Some 7)), start).
Proof.
  refine (defaultReplicas_stable (env_of config_mydb "7") api_mydb
            (set_Replicas api_mydb (Some 7)) start start _
            (env_of config_mydb "abc") start).
  vm_compute. reflexivity.
Defined.

Lemma default_accepted_iff_witness :
  defaultReplicas (env_of config_mydb "+12") api_mydb start =
  (Running (set_Replicas api_mydb (Some 12)), start).
Proof.
  refine (proj2 (proj1 (default_accepted_iff (env_of config_mydb "+12")
                          api_mydb start _ _) 12) (conj _ _)).
  - reflexivity.
  - vm_compute. discriminate.
  - vm_compute. reflexivity.
  - unfold in_int. lia.
Defined.

Lemma default_reads_back_witness :
  exists v,
    Replicas (API_Spec (set_Replicas api_mydb (Some (-5)))) = Some v /\ in_int v /\
    strconv.Atoi (replicas_text (set_Replicas api_mydb (Some (-5)))) = Ok v.
Proof.
  refine (default_reads_back (env_of config_mydb "-5") api_mydb
            (set_Replicas api_mydb (Some (-5))) start start _ _).
  - reflexivity.
  - vm_compute. reflexivity.
Defined.

Lemma main_default_round_trip_witness :
  main (yaml.Decode yaml.block_parse) (env_of config_mydb "-42")
    (complete ("A" +:+ nl)) start =
  (Running tt,
   {| stdout := ("A" +:+ nl) +:+ separator
                  +:+ rendering (set_Replicas api_mydb (Some (-42)));
      stderr := [] |}).
Proof.
  refine (proj1 (main_default_round_trip (yaml.Decode yaml.block_parse)
                   (env_of config_mydb "-42") ("A" +:+ nl) api_mydb (-42) _ _ _ _)).
  - vm_compute. reflexivity.
  - reflexivity.
  - vm_compute. reflexivity.
  - unfold in_int. lia.
Defined.

(** X10: the rendering of any configuration is as long as the text of the
    template outside its actions, 6584 bytes, plus thirteen times the
    name and once the printed replica count: the template writes the
    name at thirteen places and the count at one, and nothing else
    depends on the configuration. *)
Theorem rendering_length api :
  Z.of_nat (String.length (rendering api)) =
  6584 + 13 * Z.of_nat (String.length (Name (API_Metadata api)))
  + Z.of_nat (String.length (replicas_text api)).
Proof.
  rewrite rendering_substitute, (substitute_length _ _ _ deployment_ok).
  replace (text_size deployment) with 6584 by (vm_compute; reflexivity).
  replace (count_action ["Metadata"; "Name"] deployment) with 13
    by (vm_compute; reflexivity).
  replace (count_action ["Spec"; "Replicas"] deployment) with 1
    by (vm_compute; reflexivity).
  lia.
Qed.

(** X11: in the rendering of any configuration, the [spec] of the
    StatefulSet reads [serviceName: <name>] and, on the next line,
    [replicas: <count>], followed by the selector: the name is written
    verbatim and the count in decimal between these fixed lines. *)
Theorem rendering_statefulset_spec api :
  exists pre post : string,
    rendering api =
    pre +:+ ("spec:" +:+ nl +:+ "  serviceName: ") +:+ Name (API_Metadata api)
        +:+ (nl +:+ "  replicas: ") +:+ replicas_text api
        +:+ (nl +:+ "  selector:" +:+ nl) +:+ post.
Proof.
  exists (substitute (firstn 20 deployment) (Name (API_Metadata api)) (replicas_text api)
            +:+ String.substring 0 (String.length (text_at 20) - 21) (text_at 20)),
         (template.after 13 (text_at 24)
            +:+ substitute (skipn 25 deployment) (Name (API_Metadata api))
                  (replicas_text api)).
  rewrite rendering_substitute.
  rewrite deployment_statefulset_spec at 1.
  apply substitute_around.
Qed.
